(** * Meme lookup handlers: a shallow embedding of the two [/find_meme]
    request handlers (the Giphy variant of [src/index.ts] and the
    Google-Custom-Search variant refined by a chat-completion call).

    Strings are Rocq [string]s, read as the UTF-8 bytes of the JavaScript
    string, with a lone surrogate standing as the three bytes of its code
    point ([ED A0..BF 80..BF]); binary bodies are [list byte]; numbers that
    hold counts and timestamps are [Z]. Request bodies and upstream payloads
    are records of the fields the handlers read, typed as the TypeScript
    interfaces and the upstream schemas declare them, with [option] wherever
    the code itself allows for an absent field ([args || {}], [!text], [?.],
    [||]).

    The outbound network is an explicit world that is threaded through the
    handler together with the log of the calls made so far, so that what is
    called, in which order and with which reply can be stated. Log lines
    ([console.log]) are not modelled. *)

From Stdlib Require Import Strings.String Strings.Ascii Strings.Byte.
From Stdlib Require Import List ZArith NArith Lia Bool.
From Stdlib Require Import DecimalString.
From Stdlib Require DecimalZ DecimalPos.
Import ListNotations.
Local Open Scope string_scope.

(** ** JavaScript string helpers used by the handlers *)

Module JS.

(** [a || d] where [a] is a string that may be [null]/[undefined]: the empty
    string is falsy, like an absent one. *)
Definition or_default (a : option string) (d : string) : string :=
  match a with
  | Some (String c s) => String c s
  | Some EmptyString => d
  | None => d
  end.

(** [s.startsWith(p)] *)
Fixpoint startsWith (s p : string) : bool :=
  match p with
  | EmptyString => true
  | String c p' =>
      match s with
      | String d s' => if Ascii.eqb c d then startsWith s' p' else false
      | EmptyString => false
      end
  end.

(** [s.split('/')]: the segments between slashes; never an empty array. *)
Fixpoint split_slash (s : string) : list string :=
  match s with
  | EmptyString => [EmptyString]
  | String c s' =>
      if Ascii.eqb c "/" then EmptyString :: split_slash s'
      else match split_slash s' with
           | seg :: segs => String c seg :: segs
           | [] => [String c EmptyString]
           end
  end.

(** White space and line terminators of one UTF-8 byte: TAB, LF, VT, FF, CR
    and SPACE. *)
Definition ws1 (c : ascii) : bool :=
  let n := N_of_ascii c in
  ((9 <=? n) && (n <=? 13) || (n =? 32))%N.

(** U+00A0 is the only two-byte white space character (C2 A0). *)
Definition ws2 (c1 c2 : ascii) : bool :=
  ((N_of_ascii c1 =? 194) && (N_of_ascii c2 =? 160))%N.

(** Three-byte white space: U+1680, U+2000..U+200A, U+2028, U+2029, U+202F,
    U+205F, U+3000 and U+FEFF. *)
Definition ws3 (c1 c2 c3 : ascii) : bool :=
  let a := N_of_ascii c1 in
  let b := N_of_ascii c2 in
  let c := N_of_ascii c3 in
  ((a =? 225) && (b =? 154) && (c =? 128)
   || (a =? 226) && (b =? 128)
      && ((128 <=? c) && (c <=? 138) || (c =? 168) || (c =? 169) || (c =? 175))
   || (a =? 226) && (b =? 129) && (c =? 159)
   || (a =? 227) && (b =? 128) && (c =? 128)
   || (a =? 239) && (b =? 187) && (c =? 191))%N.

(** [s.trimStart()] *)
Fixpoint trimStart (s : string) : string :=
  match s with
  | EmptyString => EmptyString
  | String c1 s1 =>
      if ws1 c1 then trimStart s1
      else match s1 with
           | String c2 s2 =>
               if ws2 c1 c2 then trimStart s2
               else match s2 with
                    | String c3 s3 => if ws3 c1 c2 c3 then trimStart s3 else s
                    | EmptyString => s
                    end
           | EmptyString => s
           end
  end.

Fixpoint rev_string (s acc : string) : string :=
  match s with
  | EmptyString => acc
  | String c s' => rev_string s' (String c acc)
  end.

(** The same scan over the reversed string, for [trimEnd]. *)
Fixpoint trimStart_rev (s : string) : string :=
  match s with
  | EmptyString => EmptyString
  | String c1 s1 =>
      if ws1 c1 then trimStart_rev s1
      else match s1 with
           | String c2 s2 =>
               if ws2 c2 c1 then trimStart_rev s2
               else match s2 with
                    | String c3 s3 =>
                        if ws3 c3 c2 c1 then trimStart_rev s3 else s
                    | EmptyString => s
                    end
           | EmptyString => s
           end
  end.

Definition trimEnd (s : string) : string :=
  rev_string (trimStart_rev (rev_string s EmptyString)) EmptyString.

(** [s.trim()] *)
Definition trim (s : string) : string := trimEnd (trimStart s).

Definition hex_digit (n : N) : ascii :=
  match n with
  | 0 => "0" | 1 => "1" | 2 => "2" | 3 => "3" | 4 => "4" | 5 => "5"
  | 6 => "6" | 7 => "7" | 8 => "8" | 9 => "9" | 10 => "A" | 11 => "B"
  | 12 => "C" | 13 => "D" | 14 => "E" | _ => "F"
  end%N%char.

Definition hex_digit_lower (n : N) : ascii :=
  match n with
  | 0 => "0" | 1 => "1" | 2 => "2" | 3 => "3" | 4 => "4" | 5 => "5"
  | 6 => "6" | 7 => "7" | 8 => "8" | 9 => "9" | 10 => "a" | 11 => "b"
  | 12 => "c" | 13 => "d" | 14 => "e" | _ => "f"
  end%N%char.

Definition is_alnum (n : N) : bool :=
  ((48 <=? n) && (n <=? 57) || (65 <=? n) && (n <=? 90)
   || (97 <=? n) && (n <=? 122))%N.

(** The characters [encodeURIComponent] leaves alone: letters, digits and
    [- _ . ! ~ * ' ( )]. *)
Definition uri_unreserved (c : ascii) : bool :=
  let n := N_of_ascii c in
  (is_alnum n || (n =? 45) || (n =? 95) || (n =? 46) || (n =? 33)
   || (n =? 126) || (n =? 42) || (n =? 39) || (n =? 40) || (n =? 41))%N.

(** The text [encodeURIComponent(s)] returns when it returns: every other
    byte of the UTF-8 form is percent-escaped with upper-case hexadecimal
    digits. *)
Fixpoint percent_encode (s : string) : string :=
  match s with
  | EmptyString => EmptyString
  | String c s' =>
      if uri_unreserved c then String c (percent_encode s')
      else
        let n := N_of_ascii c in
        String "%" (String (hex_digit (n / 16)) (String (hex_digit (n mod 16))
          (percent_encode s')))
  end.

(** The code point of a surrogate, U+D800 to U+DFFF, that stands as the
    three bytes [c1 c2 c3]. A surrogate pair is one character of four bytes,
    so that these three bytes are always a lone surrogate. *)
Definition surrogate (c1 c2 c3 : ascii) : option N :=
  let a := N_of_ascii c1 in
  let b := N_of_ascii c2 in
  let c := N_of_ascii c3 in
  (if (a =? 237) && (160 <=? b) && (b <=? 191) && (128 <=? c) && (c <=? 191)
   then Some (55296 + (b - 160) * 64 + (c - 128))
   else None)%N.

(** Whether the string holds a lone surrogate. *)
Fixpoint lone_surrogate (s : string) : bool :=
  match s with
  | EmptyString => false
  | String c1 s1 =>
      match s1 with
      | String c2 (String c3 _) =>
          match surrogate c1 c2 c3 with
          | Some _ => true
          | None => lone_surrogate s1
          end
      | _ => lone_surrogate s1
      end
  end.

(** How a call that may throw completes. *)
Inductive thrown (A : Type) : Type :=
| Returns (a : A)
| Throws (message : string).
Arguments Returns {A} a.
Arguments Throws {A} message.

(** [encodeURIComponent(s)]: a [URIError] when [s] holds a lone surrogate. *)
Definition encodeURIComponent (s : string) : thrown string :=
  if lone_surrogate s then Throws "URI malformed"
  else Returns (percent_encode s).

Definition dquote : ascii := ascii_of_N 34.
Definition backslash : ascii := ascii_of_N 92.

(** How [JSON.stringify] writes one byte [c] that is no part of a lone
    surrogate, before the escaped [rest]. *)
Definition escape_byte (c : ascii) (rest : string) : string :=
  let n := N_of_ascii c in
  if (n =? 34)%N then String backslash (String dquote rest)
  else if (n =? 92)%N then String backslash (String backslash rest)
  else if (n =? 8)%N then String backslash (String "b" rest)
  else if (n =? 9)%N then String backslash (String "t" rest)
  else if (n =? 10)%N then String backslash (String "n" rest)
  else if (n =? 12)%N then String backslash (String "f" rest)
  else if (n =? 13)%N then String backslash (String "r" rest)
  else if (n <? 32)%N then
    String backslash (String "u" (String "0" (String "0"
      (String (hex_digit_lower (n / 16))
        (String (hex_digit_lower (n mod 16)) rest)))))
  else String c rest.

(** A lone surrogate is written as [\udxxx], with lower-case digits. *)
Definition escape_surrogate (cp : N) (rest : string) : string :=
  String backslash (String "u"
    (String (hex_digit_lower (cp / 4096))
      (String (hex_digit_lower ((cp / 256) mod 16))
        (String (hex_digit_lower ((cp / 16) mod 16))
          (String (hex_digit_lower (cp mod 16)) rest))))).

(** The body of a JSON string literal as [JSON.stringify] writes it. *)
Fixpoint json_escape (s : string) : string :=
  match s with
  | EmptyString => EmptyString
  | String c1 s1 =>
      match s1 with
      | String c2 (String c3 s3) =>
          match surrogate c1 c2 c3 with
          | Some cp => escape_surrogate cp (json_escape s3)
          | None => escape_byte c1 (json_escape s1)
          end
      | _ => escape_byte c1 (json_escape s1)
      end
  end.

Definition quote : string := String dquote EmptyString.

Definition json_string (s : string) : string := quote ++ json_escape s ++ quote.

(** [`${n}`] for an integer-valued number. *)
Definition number_to_string (z : Z) : string :=
  NilZero.string_of_int (Z.to_int z).

End JS.

(** ** [Buffer.prototype.toString('base64')] and the decoding it is read
    back with *)

Module Base64.

Definition alphabet : string :=
  "ABCDEFGHIJKLMNOPQRSTUVWXYZabcdefghijklmnopqrstuvwxyz0123456789+/".

(** The character of a six-bit value. *)
Definition digit (n : N) : ascii :=
  match String.get (N.to_nat n) alphabet with
  | Some c => c
  | None => "="%char
  end.

Definition pad : ascii := "="%char.

(** Three bytes become four digits; a last group of one or two bytes is
    padded with [=]. *)
Fixpoint encode (bs : list byte) : string :=
  match bs with
  | [] => EmptyString
  | [a] =>
      let x := Byte.to_N a in
      String (digit (x / 4)) (String (digit ((x mod 4) * 16))
        (String pad (String pad EmptyString)))
  | [a; b] =>
      let x := Byte.to_N a in
      let y := Byte.to_N b in
      String (digit (x / 4)) (String (digit ((x mod 4) * 16 + y / 16))
        (String (digit ((y mod 16) * 4)) (String pad EmptyString)))
  | a :: b :: c :: rest =>
      let x := Byte.to_N a in
      let y := Byte.to_N b in
      let z := Byte.to_N c in
      String (digit (x / 4)) (String (digit ((x mod 4) * 16 + y / 16))
        (String (digit ((y mod 16) * 4 + z / 64)) (String (digit (z mod 64))
          (encode rest))))
  end%N.

(** The six-bit value of a digit of the alphabet. *)
Definition value (c : ascii) : option N :=
  let n := N_of_ascii c in
  (if (65 <=? n) && (n <=? 90) then Some (n - 65)
   else if (97 <=? n) && (n <=? 122) then Some (n - 71)
   else if (48 <=? n) && (n <=? 57) then Some (n + 4)
   else if n =? 43 then Some 62
   else if n =? 47 then Some 63
   else None)%N.

Definition byte_of (n : N) : byte :=
  match Byte.of_N n with
  | Some b => b
  | None => x00
  end.

(** The strict decoder of the padded alphabet (RFC 4648, section 4): groups
    of four digits, padding only in the last group and only over zero bits. *)
Fixpoint decode (s : string) : option (list byte) :=
  match s with
  | EmptyString => Some []
  | String c1 (String c2 (String c3 (String c4 rest))) =>
      match value c1, value c2 with
      | Some w, Some x =>
          let b1 := byte_of (w * 4 + x / 16) in
          if Ascii.eqb c3 pad then
            if Ascii.eqb c4 pad && (x mod 16 =? 0)%N then
              match rest with
              | EmptyString => Some [b1]
              | _ => None
              end
            else None
          else
            match value c3 with
            | Some y =>
                let b2 := byte_of ((x mod 16) * 16 + y / 4) in
                if Ascii.eqb c4 pad then
                  if (y mod 4 =? 0)%N then
                    match rest with
                    | EmptyString => Some [b1; b2]
                    | _ => None
                    end
                  else None
                else
                  match value c4 with
                  | Some z =>
                      let b3 := byte_of ((y mod 4) * 64 + z) in
                      match decode rest with
                      | Some bs => Some (b1 :: b2 :: b3 :: bs)
                      | None => None
                      end
                  | None => None
                  end
            | None => None
            end
      | _, _ => None
      end
  | _ => None
  end%N.

End Base64.

(** ** The outbound network and the handler monad *)

(** An awaited promise either resolves to a value or rejects with an error,
    of which the handlers only read [message]. *)
Inductive promise (A : Type) : Type :=
| Resolved (a : A)
| Rejected (message : string).
Arguments Resolved {A} a.
Arguments Rejected {A} message.

Inductive Method : Type := GET | HEAD.

(** The second argument of [fetch]: the options the handlers set. *)
Record FetchInit : Type := mkInit {
  method : Method;
  user_agent : option string;
  timeout : option N
}.

(** [fetch(url)] without options. *)
Definition no_init : FetchInit := mkInit GET None None.

(** What the handlers read of a node-fetch response; [D] is the type of the
    data [response.json()] resolves to. [content_type] is
    [headers.get('content-type')], [None] when it is [null]. *)
Record Response (D : Type) : Type := mkResponse {
  ok : bool;
  statusText : string;
  content_type : option string;
  json : promise D;
  arrayBuffer : promise (list byte)
}.
Arguments mkResponse {D}.
Arguments ok {D}.
Arguments statusText {D}.
Arguments content_type {D}.
Arguments json {D}.
Arguments arrayBuffer {D}.

Record Message : Type := mkMessage { role : string; content : string }.

(** [choices[i].message.content] is [string | null]. *)
Record Choice : Type := mkChoice { message_content : option string }.

Record Usage : Type := mkUsage { total_tokens : Z }.

Record ChatCompletion : Type := mkCompletion {
  choices : list Choice;
  usage : option Usage
}.

(** One outbound call with what it settled to. *)
Inductive Event (D : Type) : Type :=
| ChatCreate (model : string) (messages : list Message)
    (r : promise ChatCompletion)
| Fetch (url : string) (init : FetchInit) (r : promise (Response D)).
Arguments ChatCreate {D}.
Arguments Fetch {D}.

(** The world outside the process: its state changes with every outbound
    call, so the same URL may answer differently the second time. *)
Record World (D : Type) : Type := mkWorld {
  state : Type;
  chat_create :
    state -> string -> list Message -> promise ChatCompletion * state;
  fetch : state -> string -> FetchInit -> promise (Response D) * state;
  now : state -> Z
}.
Arguments state {D}.
Arguments chat_create {D}.
Arguments fetch {D}.
Arguments now {D}.

(** The artifact and envelope objects of a successful response. *)
Module Artifact.
Record t : Type := mk {
  name : string;
  type : string;
  base64 : string;
  mimeType : string
}.
End Artifact.

Module Envelope.
Record t : Type := mk {
  ok : bool;
  tokensUsed : Z;
  artifacts : list Artifact.t;
  result : string
}.
End Envelope.

Inductive Body : Type :=
| ErrorBody (error : string)
| EnvelopeBody (e : Envelope.t).

(** What [res.status(s).json(b)] sends; [res.json(b)] sends status 200. *)
Record HttpResponse : Type := mkHttp { status : Z; body : Body }.

Definition res_status_json (s : Z) (error : string) : HttpResponse :=
  mkHttp s (ErrorBody error).

Definition res_json (e : Envelope.t) : HttpResponse :=
  mkHttp 200 (EnvelopeBody e).

(** [JSON.stringify({url, title, query})] *)
Definition stringify_responseData (url title query : string) : string :=
  "{" ++ JS.json_string "url" ++ ":" ++ JS.json_string url ++ ","
      ++ JS.json_string "title" ++ ":" ++ JS.json_string title ++ ","
      ++ JS.json_string "query" ++ ":" ++ JS.json_string query ++ "}".

(** [x || 0] for a number that may be absent. *)
Definition num_or_zero (x : option Z) : Z :=
  match x with
  | Some n => if (n =? 0)%Z then 0%Z else n
  | None => 0%Z
  end.

(** How a statement completes: normally, by [throw], or by [return] of the
    response that was sent. *)
Inductive Completion (A : Type) : Type :=
| Normal (a : A)
| Throw (message : string)
| Return (r : HttpResponse).
Arguments Normal {A} a.
Arguments Throw {A} message.
Arguments Return {A} r.

Section Monad.
Context {D : Type} (Wd : World D).

(** The state threaded through a handler: the world and the log of the
    outbound calls made so far, oldest first. *)
Definition St : Type := (state Wd * list (Event D))%type.

Definition M (A : Type) : Type := St -> Completion A * St.

Definition ret {A} (a : A) : M A := fun s => (Normal a, s).

Definition bind {A B} (c : M A) (k : A -> M B) : M B :=
  fun s =>
    match c s with
    | (Normal a, s') => k a s'
    | (Throw m, s') => (Throw m, s')
    | (Return r, s') => (Return r, s')
    end.

Definition throw {A} (message : string) : M A := fun s => (Throw message, s).

Definition return_ {A} (r : HttpResponse) : M A := fun s => (Return r, s).

(** [try { c } catch (e) { h e }] *)
Definition try_catch {A} (c : M A) (h : string -> M A) : M A :=
  fun s =>
    match c s with
    | (Throw m, s') => h m s'
    | other => other
    end.

(** [await p] for a promise that is already in hand (a body read). *)
Definition await {A} (p : promise A) : M A :=
  match p with
  | Resolved a => ret a
  | Rejected m => throw m
  end.

(** A call that returns or throws in place. *)
Definition call {A} (t : JS.thrown A) : M A :=
  match t with
  | JS.Returns a => ret a
  | JS.Throws m => throw m
  end.

(** [await fetch(url, init)] *)
Definition await_fetch (url : string) (init : FetchInit) : M (Response D) :=
  fun '(w, log) =>
    let '(r, w') := fetch Wd w url init in
    await r (w', (log ++ [Fetch url init r])%list).

(** [await openai.chat.completions.create({model, messages})] *)
Definition await_chat_create (model : string) (messages : list Message)
  : M ChatCompletion :=
  fun '(w, log) =>
    let '(r, w') := chat_create Wd w model messages in
    await r (w', (log ++ [ChatCreate model messages r])%list).

(** [Date.now()] *)
Definition Date_now : M Z := fun '(w, log) => (Normal (now Wd w), (w, log)).

(** The outer [catch] answers 500 with the error's message. *)
Definition settle (r : Completion HttpResponse * St) : HttpResponse * St :=
  match r with
  | (Normal r, s) => (r, s)
  | (Return r, s) => (r, s)
  | (Throw message, s) => (res_status_json 500 message, s)
  end.

(** The route: the handler body inside the outer [try]. The log of a request
    starts empty. *)
Definition route (c : M HttpResponse) (w : state Wd) : HttpResponse * St :=
  settle (c (w, [])).
End Monad.

Declare Scope handler_scope.
Delimit Scope handler_scope with handler.
Notation "x <- c ;; k" := (bind _ c (fun x => k))
  (at level 61, c at next level, right associativity) : handler_scope.

Local Open Scope handler_scope.

(** ** The simple variant: [src/index.ts], Giphy search *)

Module Simple.

(** [interface FindMemeRequest { args: { description: string } }]; a field
    the request leaves out is [None]. *)
Record Args : Type := mkArgs { description : option string }.
Record FindMemeRequest : Type := mkRequest { args : option Args }.

(** What the handler reads of the Giphy search response. *)
Record Original : Type := mkOriginal { url : option string }.
Record Images : Type := mkImages { original : option Original }.
Record Gif : Type := mkGif { images : option Images; title : string }.
Record GiphyData : Type := mkData { data : option (list Gif) }.

(** [gif.images?.original?.url] *)
Definition original_url (gif : Gif) : option string :=
  match images gif with
  | Some i => match original i with
              | Some o => url o
              | None => None
              end
  | None => None
  end.

(** [const { args } = req.body; const { description } = args || {}] *)
Definition description_of (req_body : FindMemeRequest) : option string :=
  match args req_body with
  | Some a => description a
  | None => None
  end.

Section Handler.
Context (Wd : World GiphyData) (GIPHY_API_KEY : string).

Definition limit : string := "1".
Definition rating : string := "pg-13".

(** The template literal of [giphyUrl] around the encoded description. *)
Definition search_template (encoded : string) : string :=
  "https://api.giphy.com/v1/gifs/search?api_key=" ++ GIPHY_API_KEY
    ++ "&q=" ++ encoded
    ++ "&limit=" ++ limit ++ "&rating=" ++ rating.

(** [giphyUrl] of a description that [encodeURIComponent] accepts. *)
Definition search_url (description : string) : string :=
  search_template (JS.percent_encode description).

(** The body of the [try] block of [app.post('/find_meme', ...)]. *)
Definition find_meme_body (req_body : FindMemeRequest)
  : M Wd HttpResponse :=
  match description_of req_body with
  | None | Some EmptyString =>
      return_ Wd (res_status_json 400 "Missing description parameter")
  | Some description =>
      encoded <- call Wd (JS.encodeURIComponent description) ;;
      let giphyUrl := search_template encoded in
      response <- await_fetch Wd giphyUrl no_init ;;
      if negb (ok response) then
        throw Wd ("Giphy API failed: " ++ statusText response)
      else
        data <- await Wd (json response) ;;
        match Simple.data data with
        | None | Some [] =>
            return_ Wd
              (res_status_json 404 "No meme found for this description.")
        | Some (gif :: _) =>
            match original_url gif with
            | None | Some EmptyString =>
                return_ Wd
                  (res_status_json 404
                     "No valid image URL in Giphy response.")
            | Some imageUrl =>
                imageResponse <- await_fetch Wd imageUrl no_init ;;
                if negb (ok imageResponse) then
                  throw Wd ("Failed to download image: "
                            ++ statusText imageResponse)
                else
                  let mimeType :=
                    JS.or_default (content_type imageResponse)
                      "image/gif" in
                  arrayBuffer <- await Wd (arrayBuffer imageResponse) ;;
                  let base64Image := Base64.encode arrayBuffer in
                  t <- Date_now Wd ;;
                  let artifact :=
                    Artifact.mk
                      ("meme_" ++ JS.number_to_string t ++ ".gif")
                      "image" base64Image mimeType in
                  let responseData :=
                    stringify_responseData imageUrl (title gif)
                      description in
                  ret Wd
                    (res_json
                       (Envelope.mk true 0 [artifact] responseData))
            end
        end
  end.

Definition find_meme (req_body : FindMemeRequest) (w : state Wd)
  : HttpResponse * St Wd :=
  route Wd (find_meme_body req_body) w.
End Handler.

End Simple.

(** ** The refined variant: chat-completion query refinement, Google Custom
    Search and a HEAD check of every candidate *)

Module Refined.

(** [interface FindMemeRequest { text: string; model?: string }] *)
Record FindMemeRequest : Type := mkRequest {
  text : option string;
  model : option string
}.

(** One search result and the search response, as far as they are read. *)
Record Item : Type := mkItem { link : string; title : string }.
Record SearchData : Type := mkData { items : option (list Item) }.

(** The [let] variables the candidate loop assigns. *)
Record Locals : Type := mkLocals {
  imageUrl : string;
  imageTitle : string;
  found : bool;
  mimeType : string
}.

(** How one turn of the [for ... of] loop ends. *)
Inductive Turn : Type :=
| Break (v : Locals)
| Continue.

Definition system_prompt : string :=
  "You are a meme expert. Convert the user input into a specific Google Image Search query to find the best matching meme image. Return ONLY the query string, nothing else. Do not use quotes.".

Definition browser_user_agent : string :=
  "Mozilla/5.0 (Windows NT 10.0; Win64; x64) AppleWebKit/537.36 (KHTML, like Gecko) Chrome/91.0.4472.124 Safari/537.36".

(** The options of the HEAD check and of the image download. *)
Definition head_init : FetchInit :=
  mkInit HEAD (Some browser_user_agent) (Some 5000%N).

Definition image_init : FetchInit :=
  mkInit GET (Some browser_user_agent) None.

(** [completion.choices[0].message.content?.trim() || text] *)
Definition refine_query (content : option string) (text : string) : string :=
  JS.or_default (option_map JS.trim content) text.

(** [mimeType.split('/')[1] || 'img'] *)
Definition extension (mimeType : string) : string :=
  JS.or_default (nth_error (JS.split_slash mimeType) 1) "img".

(** [const { text, model = 'gpt-4o' } = req.body]: the default is taken
    when the request has no [model]. *)
Definition model_of (req_body : FindMemeRequest) : string :=
  match model req_body with
  | Some m => m
  | None => "gpt-4o"
  end.

Section Handler.
Context (Wd : World SearchData) (GOOGLE_API_KEY GOOGLE_CX : string).

(** The template literal of [searchUrl] around the encoded query. *)
Definition search_template (encoded : string) : string :=
  "https://www.googleapis.com/customsearch/v1?key=" ++ GOOGLE_API_KEY
    ++ "&cx=" ++ GOOGLE_CX ++ "&q=" ++ encoded
    ++ "&searchType=image&num=5&safe=off".

(** [searchUrl] of a query that [encodeURIComponent] accepts. *)
Definition search_url (searchQuery : string) : string :=
  search_template (JS.percent_encode searchQuery).

(** The body of the inner [try] for one item. *)
Definition check_item (item : Item) : M Wd Turn :=
  headResponse <- await_fetch Wd (link item) head_init ;;
  if ok headResponse then
    let contentType :=
      JS.or_default (content_type headResponse) EmptyString in
    if JS.startsWith contentType "image/" then
      ret Wd (Break (mkLocals (link item) (title item) true contentType))
    else ret Wd Continue
  else ret Wd Continue.

(** [for (const item of searchData.items) { try {...} catch (e) {...} }] *)
Fixpoint check_items (items : list Item) (v : Locals) : M Wd Locals :=
  match items with
  | [] => ret Wd v
  | item :: rest =>
      turn <- try_catch Wd (check_item item) (fun e => ret Wd Continue) ;;
      match turn with
      | Break v' => ret Wd v'
      | Continue => check_items rest v
      end
  end.

Definition initial_locals : Locals :=
  mkLocals EmptyString EmptyString false "application/octet-stream".

Definition chat_messages (text : string) : list Message :=
  [mkMessage "system" system_prompt; mkMessage "user" text].

(** The body of the [try] block of [app.post('/find_meme', ...)]. *)
Definition find_meme_body (req_body : FindMemeRequest)
  : M Wd HttpResponse :=
  let model := model_of req_body in
  match text req_body with
  | None | Some EmptyString =>
      return_ Wd (res_status_json 400 "Missing text parameter")
  | Some text =>
      completion <- await_chat_create Wd model (chat_messages text) ;;
      match choices completion with
      | [] =>
          throw Wd "Cannot read properties of undefined (reading 'message')"
      | choice :: _ =>
          let searchQuery := refine_query (message_content choice) text in
          encoded <- call Wd (JS.encodeURIComponent searchQuery) ;;
          let searchUrl := search_template encoded in
          searchResponse <- await_fetch Wd searchUrl no_init ;;
          if negb (ok searchResponse) then
            throw Wd ("Google Search API failed: "
                      ++ statusText searchResponse)
          else
            searchData <- await Wd (json searchResponse) ;;
            match items searchData with
            | None | Some [] =>
                return_ Wd
                  (res_status_json 404
                     "No meme found for this description.")
            | Some items =>
                v <- check_items items initial_locals ;;
                if negb (found v) then
                  return_ Wd
                    (res_status_json 404
                       "No valid image accessible from search results.")
                else
                  imageResponse <-
                    await_fetch Wd (imageUrl v) image_init ;;
                  if negb (ok imageResponse) then
                    throw Wd ("Failed to download image: "
                              ++ statusText imageResponse)
                  else
                    let mimeType :=
                      JS.or_default (content_type imageResponse)
                        "application/octet-stream" in
                    if negb (JS.startsWith mimeType "image/") then
                      throw Wd ("URL returned non-image content: "
                                ++ mimeType)
                    else
                      arrayBuffer <-
                        await Wd (arrayBuffer imageResponse) ;;
                      let base64Image := Base64.encode arrayBuffer in
                      t <- Date_now Wd ;;
                      let artifact :=
                        Artifact.mk
                          ("meme_" ++ JS.number_to_string t ++ "."
                             ++ extension mimeType)
                          "image" base64Image mimeType in
                      let responseData :=
                        stringify_responseData (imageUrl v) (imageTitle v)
                          searchQuery in
                      ret Wd
                        (res_json
                           (Envelope.mk true
                              (num_or_zero
                                 (option_map total_tokens
                                    (usage completion)))
                              [artifact] responseData))
            end
      end
  end.

Definition find_meme (req_body : FindMemeRequest) (w : state Wd)
  : HttpResponse * St Wd :=
  route Wd (find_meme_body req_body) w.
End Handler.

End Refined.

(** ** Vocabulary of the properties *)

(** The content type a HEAD reply is accepted with: the check resolved, the
    response is [ok] and its content type begins with [image/]. *)
Definition accepted {D} (r : promise (Response D)) : option string :=
  match r with
  | Resolved resp =>
      if ok resp then
        let contentType := JS.or_default (content_type resp) EmptyString in
        if JS.startsWith contentType "image/" then Some contentType else None
      else None
  | Rejected _ => None
  end.

(** Whether a reply reports a content type beginning with [image/]. *)
Definition reports_image {D} (r : promise (Response D)) : bool :=
  match r with
  | Resolved resp =>
      JS.startsWith (JS.or_default (content_type resp) EmptyString) "image/"
  | Rejected _ => false
  end.

(** The HEAD check of a candidate, with its reply, as it is logged. *)
Definition head_event
  (p : Refined.Item * promise (Response Refined.SearchData))
  : Event Refined.SearchData :=
  Fetch (Refined.link (fst p)) Refined.head_init (snd p).

(** The search query as the specification words it: the trimmed output of
    the model, or the raw input text when the model returns no content or
    content that is empty after trimming. *)
Definition query_per_spec (content : option string) (text : string)
  : string :=
  match content with
  | None => text
  | Some s =>
      match JS.trim s with
      | EmptyString => text
      | q => q
      end
  end.

(** A computation only ever appends to the log. *)
Definition grows {D A} (Wd : World D) (c : M Wd A) : Prop :=
  forall w log, exists more, snd (snd (c (w, log))) = (log ++ more)%list.

(** ** Scripted worlds, for concrete runs: every call takes the next reply
    of its kind, and is refused once the script is used up. *)

Module Script.

Definition state (D : Type) : Type :=
  (list (promise ChatCompletion) * list (promise (Response D)))%type.

Definition world (D : Type) (clock : Z) : World D :=
  mkWorld D (state D)
    (fun s _ _ =>
       match fst s with
       | r :: rest => (r, (rest, snd s))
       | [] => (Rejected "connect ECONNREFUSED", s)
       end)
    (fun s _ _ =>
       match snd s with
       | r :: rest => (r, (fst s, rest))
       | [] => (Rejected "connect ECONNREFUSED", s)
       end)
    (fun _ => clock).

(** An [ok] response that carries search data. *)
Definition json_response {D} (d : D) : promise (Response D) :=
  Resolved (mkResponse true "OK" (Some "application/json") (Resolved d)
              (Rejected "body used already")).

(** A response that carries a binary body. *)
Definition binary_response {D} (ok : bool) (contentType : option string)
  (bytes : list byte) : promise (Response D) :=
  Resolved (mkResponse ok (if ok then "OK" else "Not Found") contentType
              (Rejected "Unexpected token") (Resolved bytes)).

End Script.

(** ** Concrete requests and worlds *)

Module Examples.

Definition clock : Z := 1700000000000%Z.

(** The simple variant: one Giphy hit, then the image. *)
Definition simple_request : Simple.FindMemeRequest :=
  Simple.mkRequest (Some (Simple.mkArgs (Some "cat typing"))).

Definition simple_world : World Simple.GiphyData :=
  Script.world Simple.GiphyData clock.

Definition gif_url : string := "https://media.giphy.com/media/abc/giphy.gif".

Definition giphy_hit : promise (Response Simple.GiphyData) :=
  Script.json_response
    (Simple.mkData
       (Some [Simple.mkGif
                (Some (Simple.mkImages (Some (Simple.mkOriginal (Some gif_url)))))
                "Cat Typing"])).

Definition giphy_nothing : promise (Response Simple.GiphyData) :=
  Script.json_response (Simple.mkData (Some [])).

(** The image comes back as a PNG. *)
Definition simple_png : Script.state Simple.GiphyData :=
  ([], [giphy_hit;
        Script.binary_response true (Some "image/png") [x89; x50; x4e; x47]]).

(** The image comes back with an empty body. *)
Definition simple_empty : Script.state Simple.GiphyData :=
  ([], [giphy_hit; Script.binary_response true (Some "image/gif") []]).

Definition simple_nothing : Script.state Simple.GiphyData :=
  ([], [giphy_nothing]).

(** The refined variant: the model answers, the search returns five
    candidates, of which the third is the first reachable image. *)
Definition refined_request : Refined.FindMemeRequest :=
  Refined.mkRequest (Some "when the deploy fails") None.

Definition refined_world : World Refined.SearchData :=
  Script.world Refined.SearchData clock.

Definition answer : ChatCompletion :=
  mkCompletion [mkChoice (Some "  deploy fail panic meme ")]
    (Some (mkUsage 57)).

Definition five : list Refined.Item :=
  [Refined.mkItem "https://a.example/1" "one";
   Refined.mkItem "https://a.example/2" "two";
   Refined.mkItem "https://a.example/3.png" "three";
   Refined.mkItem "https://a.example/4.png" "four";
   Refined.mkItem "https://a.example/5.png" "five"].

Definition search_hit : promise (Response Refined.SearchData) :=
  Script.json_response (Refined.mkData (Some five)).

Definition search_nothing : promise (Response Refined.SearchData) :=
  Script.json_response (Refined.mkData None).

Definition html : promise (Response Refined.SearchData) :=
  Script.binary_response true (Some "text/html; charset=utf-8") [].

Definition gone : promise (Response Refined.SearchData) :=
  Script.binary_response false None [].

(** HEAD says PNG, the download says JPEG. *)
Definition refined_third : Script.state Refined.SearchData :=
  ([Resolved answer],
   [search_hit; Rejected "network timeout"; html;
    Script.binary_response true (Some "image/png") [];
    Script.binary_response true (Some "image/jpeg") [xff; xd8; xff; xe0]]).

(** The same run with an empty image body. *)
Definition refined_empty : Script.state Refined.SearchData :=
  ([Resolved answer],
   [search_hit; Rejected "network timeout"; html;
    Script.binary_response true (Some "image/png") [];
    Script.binary_response true (Some "image/png") []]).

(** No candidate is a reachable image. *)
Definition refined_none : Script.state Refined.SearchData :=
  ([Resolved answer],
   [search_hit; Rejected "network timeout"; html; gone; html; gone]).

Definition refined_nothing : Script.state Refined.SearchData :=
  ([Resolved answer], [search_nothing]).

(** The string of the given UTF-8 bytes. *)
Definition of_bytes (l : list N) : string :=
  string_of_list_ascii (map ascii_of_N l).

(** Every white space character and line terminator of ECMAScript, once:
    TAB, LF, VT, FF, CR, SPACE, U+00A0, U+1680, U+2000 to U+200A, U+2028,
    U+2029, U+202F, U+205F, U+3000 and U+FEFF. *)
Definition white_space : string :=
  of_bytes
    [9; 10; 11; 12; 13; 32; 194; 160; 225; 154; 128;
     226; 128; 128; 226; 128; 129; 226; 128; 130; 226; 128; 131;
     226; 128; 132; 226; 128; 133; 226; 128; 134; 226; 128; 135;
     226; 128; 136; 226; 128; 137; 226; 128; 138;
     226; 128; 168; 226; 128; 169; 226; 128; 175; 226; 129; 159;
     227; 128; 128; 239; 187; 191]%N.

(** The model's answer with all of them on both sides. Its first character
    is a zero-width space (U+200B) and its last a next-line character
    (U+0085), neither of which [trim] takes for white space. *)
Definition padded_answer : ChatCompletion :=
  mkCompletion
    [mkChoice
       (Some (white_space ++ of_bytes [226; 128; 139]%N
                ++ "deploy fail panic meme" ++ of_bytes [194; 133]%N
                ++ white_space))]
    None.

Definition refined_padded : Script.state Refined.SearchData :=
  ([Resolved padded_answer], [search_nothing]).

(** The model answers with white space only. *)
Definition blank_answer : ChatCompletion :=
  mkCompletion [mkChoice (Some white_space)] None.

Definition refined_blank : Script.state Refined.SearchData :=
  ([Resolved blank_answer], [search_nothing]).

(** A lone surrogate: the high half, U+D83D, of an emoji. *)
Definition lone_high : string := of_bytes [237; 160; 189]%N.

(** The model's answer was cut in the middle of an emoji. *)
Definition cut_answer : ChatCompletion :=
  mkCompletion [mkChoice (Some ("deploy fail " ++ lone_high))] None.

Definition refined_cut : Script.state Refined.SearchData :=
  ([Resolved cut_answer], [search_hit]).

(** A description that ends in the middle of an emoji. *)
Definition cut_request : Simple.FindMemeRequest :=
  Simple.mkRequest (Some (Simple.mkArgs (Some ("cat " ++ lone_high)))).

End Examples.

(** ** More scripted runs: upstream failures *)

Module Failures.

(** The search answers 404. *)
Definition simple_search_404 : Script.state Simple.GiphyData :=
  ([], [Script.binary_response false None []]).

(** The first result has no image, the second one has. *)
Definition simple_without_url : Script.state Simple.GiphyData :=
  ([], [Script.json_response
          (Simple.mkData
             (Some [Simple.mkGif None "No image";
                    Simple.mkGif
                      (Some (Simple.mkImages
                               (Some (Simple.mkOriginal
                                        (Some Examples.gif_url)))))
                      "Second"]))]).

(** The download comes back as an HTML page. *)
Definition simple_html : Script.state Simple.GiphyData :=
  ([], [Examples.giphy_hit;
        Script.binary_response true (Some "text/html") [x3c; x68; x31; x3e]]).

(** The completion call is refused. *)
Definition refined_chat_401 : Script.state Refined.SearchData :=
  ([Rejected "401 Incorrect API key provided"], []).

(** The completion has no choices. *)
Definition refined_no_choices : Script.state Refined.SearchData :=
  ([Resolved (mkCompletion [] None)], []).

(** The search answers 404. *)
Definition refined_search_404 : Script.state Refined.SearchData :=
  ([Resolved Examples.answer], [Script.binary_response false None []]).

(** The first candidate passes the HEAD check, its download is an HTML
    page. *)
Definition refined_html : Script.state Refined.SearchData :=
  ([Resolved Examples.answer],
   [Examples.search_hit;
    Script.binary_response true (Some "image/png") [];
    Script.binary_response true (Some "text/html") [x3c; x68; x31; x3e]]).

End Failures.

(** ** Reading back the [result] text

    A reader of the JSON text the handlers put into [result], in the way
    [JSON.parse] reads string literals and an object of three string
    members. *)

Module JSONRead.

(** The value of a hexadecimal digit, of either case. *)
Definition hex_value (c : ascii) : option N :=
  let n := N_of_ascii c in
  (if (48 <=? n) && (n <=? 57) then Some (n - 48)
   else if (97 <=? n) && (n <=? 102) then Some (n - 87)
   else if (65 <=? n) && (n <=? 70) then Some (n - 55)
   else None)%N.

(** The character a two-character escape stands for. *)
Definition escape_char (e : ascii) : option ascii :=
  let n := N_of_ascii e in
  (if n =? 34 then Some (ascii_of_N 34)
   else if n =? 92 then Some (ascii_of_N 92)
   else if n =? 47 then Some (ascii_of_N 47)
   else if n =? 98 then Some (ascii_of_N 8)
   else if n =? 102 then Some (ascii_of_N 12)
   else if n =? 110 then Some (ascii_of_N 10)
   else if n =? 114 then Some (ascii_of_N 13)
   else if n =? 116 then Some (ascii_of_N 9)
   else None)%N.

Definition cons_char (c : ascii) (r : option (string * string))
  : option (string * string) :=
  match r with
  | Some (s, rest) => Some (String c s, rest)
  | None => None
  end.

(** Reads a JSON string literal after its opening quote: the string it
    denotes and the text after the closing quote. Of the [\u] escapes those
    of one byte (below U+0080) and those of a surrogate are read, each
    surrogate by itself: [JSON.stringify] writes no other, and never the
    escape of a high surrogate before that of a low one. *)
Fixpoint read_chars (s : string) : option (string * string) :=
  match s with
  | EmptyString => None
  | String c s1 =>
      let n := N_of_ascii c in
      if (n =? 34)%N then Some (EmptyString, s1)
      else if (n =? 92)%N then
        match s1 with
        | String e s2 =>
            if (N_of_ascii e =? 117)%N then
              match s2 with
              | String h1 (String h2 (String h3 (String h4 s3))) =>
                  match hex_value h1, hex_value h2, hex_value h3,
                        hex_value h4 with
                  | Some v1, Some v2, Some v3, Some v4 =>
                      let code := (((v1 * 16 + v2) * 16 + v3) * 16 + v4)%N in
                      if (code <? 128)%N
                      then cons_char (ascii_of_N code) (read_chars s3)
                      else if ((55296 <=? code) && (code <=? 57343))%N
                      then
                        cons_char (ascii_of_N 237)
                          (cons_char
                             (ascii_of_N (160 + (code - 55296) / 64))
                             (cons_char
                                (ascii_of_N (128 + (code - 55296) mod 64))
                                (read_chars s3)))
                      else None
                  | _, _, _, _ => None
                  end
              | _ => None
              end
            else
              match escape_char e with
              | Some x => cons_char x (read_chars s2)
              | None => None
              end
        | EmptyString => None
        end
      else if (n <? 32)%N then None
      else cons_char c (read_chars s1)
  end.

Definition read_literal (s : string) : option (string * string) :=
  match s with
  | String q s' => if (N_of_ascii q =? 34)%N then read_chars s' else None
  | EmptyString => None
  end.

(** Strips the prefix [p]. *)
Fixpoint expect (p s : string) : option string :=
  match p with
  | EmptyString => Some s
  | String c p' =>
      match s with
      | String d s' => if Ascii.eqb c d then expect p' s' else None
      | EmptyString => None
      end
  end.

(** Reads the member [key] and its string value. *)
Definition read_member (key s : string) : option (string * string) :=
  match read_literal s with
  | Some (k, s1) =>
      if String.eqb k key then
        match expect ":" s1 with
        | Some s2 => read_literal s2
        | None => None
        end
      else None
  | None => None
  end.

(** Reads the text of an object [{url, title, query}] of three strings. *)
Definition read_responseData (s : string)
  : option (string * string * string) :=
  match expect "{" s with
  | Some s1 =>
      match read_member "url" s1 with
      | Some (url, s2) =>
          match expect "," s2 with
          | Some s3 =>
              match read_member "title" s3 with
              | Some (title, s4) =>
                  match expect "," s4 with
                  | Some s5 =>
                      match read_member "query" s5 with
                      | Some (query, s6) =>
                          match s6 with
                          | String c EmptyString =>
                              if Ascii.eqb c "}" then Some (url, title, query)
                              else None
                          | _ => None
                          end
                      | None => None
                      end
                  | None => None
                  end
              | None => None
              end
          | None => None
          end
      | None => None
      end
  | None => None
  end.

End JSONRead.

(** ** Facts about the base64 coding *)

Module Base64Facts.
Import Base64.

(** A digit is read back as its value, and is never the padding sign. *)
Lemma value_digit n :
  (n < 64)%N ->
  value (digit n) = Some n /\ Ascii.eqb (digit n) pad = false.
Proof.
  intros H. destruct n as [|p]; [split; reflexivity|].
  do 6 (try destruct p as [p|p|]); try (split; reflexivity); exfalso; lia.
Qed.

Lemma byte_of_to_N b : byte_of (Byte.to_N b) = b.
Proof. unfold byte_of. now rewrite Byte.of_to_N. Qed.

Lemma to_N_lt b : (Byte.to_N b < 256)%N.
Proof. pose proof (Byte.to_N_bounded b). lia. Qed.

(** The arithmetic of cutting three bytes into four six-bit values and of
    putting them together again. *)
Lemma split_join a b m :
  (b < m -> (a * m + b) / m = a /\ (a * m + b) mod m = b)%N.
Proof.
  intros H. split.
  - symmetry. apply (N.div_unique _ _ _ b); lia.
  - symmetry. apply (N.mod_unique _ _ a); lia.
Qed.

Lemma div_mod_join x m : (m <> 0 -> x / m * m + x mod m = x)%N.
Proof. intros H. pose proof (N.div_mod x m H). lia. Qed.

Lemma div_bound x m k : (m <> 0 -> x < k * m -> x / m < k)%N.
Proof. intros Hm H. apply N.Div0.div_lt_upper_bound. lia. Qed.

Lemma arith3 x y z : (x < 256 -> y < 256 -> z < 256 ->
  let w1 := x / 4 in let w2 := (x mod 4) * 16 + y / 16 in
  let w3 := (y mod 16) * 4 + z / 64 in let w4 := z mod 64 in
  w1 < 64 /\ w2 < 64 /\ w3 < 64 /\ w4 < 64 /\
  w1 * 4 + w2 / 16 = x /\ (w2 mod 16) * 16 + w3 / 4 = y /\
  (w3 mod 4) * 64 + w4 = z)%N.
Proof.
  intros Hx Hy Hz.
  assert (Hx4 : (x mod 4 < 4)%N) by (apply N.mod_lt; lia).
  assert (Hy16 : (y mod 16 < 16)%N) by (apply N.mod_lt; lia).
  assert (Hz64 : (z mod 64 < 64)%N) by (apply N.mod_lt; lia).
  assert (Hxd : (x / 4 < 64)%N) by (apply div_bound; lia).
  assert (Hyd : (y / 16 < 16)%N) by (apply div_bound; lia).
  assert (Hzd : (z / 64 < 4)%N) by (apply div_bound; lia).
  destruct (split_join (x mod 4) (y / 16) 16 Hyd) as [E1 E2].
  destruct (split_join (y mod 16) (z / 64) 4 Hzd) as [E3 E4].
  cbv zeta. rewrite E1, E2, E3, E4.
  rewrite !div_mod_join by lia.
  repeat split; lia.
Qed.

Lemma arith1 x : (x < 256 ->
  let w1 := x / 4 in let w2 := (x mod 4) * 16 in
  w1 < 64 /\ w2 < 64 /\ w1 * 4 + w2 / 16 = x /\ w2 mod 16 = 0)%N.
Proof.
  intros Hx.
  destruct (arith3 x 0 0 Hx) as (H1 & H2 & _ & _ & H5 & H6 & _); try lia.
  cbv zeta in *. change (0 / 16)%N with 0%N in *. rewrite N.add_0_r in *.
  repeat split; try assumption.
  destruct (split_join (x mod 4) 0 16) as [_ E]; [lia|].
  now rewrite N.add_0_r in E.
Qed.

Lemma arith2 x y : (x < 256 -> y < 256 ->
  let w1 := x / 4 in let w2 := (x mod 4) * 16 + y / 16 in
  let w3 := (y mod 16) * 4 in
  w1 < 64 /\ w2 < 64 /\ w3 < 64 /\
  w1 * 4 + w2 / 16 = x /\ (w2 mod 16) * 16 + w3 / 4 = y /\ w3 mod 4 = 0)%N.
Proof.
  intros Hx Hy.
  destruct (arith3 x y 0 Hx Hy) as (H1 & H2 & H3 & _ & H5 & H6 & _); try lia.
  cbv zeta in *. change (0 / 64)%N with 0%N in *. rewrite N.add_0_r in *.
  repeat split; try assumption.
  destruct (split_join (y mod 16) 0 4) as [_ E]; [lia|].
  now rewrite N.add_0_r in E.
Qed.

(** Induction over a list three elements at a time, as [encode] reads it. *)
Lemma list_ind3 {A} (P : list A -> Prop) :
  P [] -> (forall a, P [a]) -> (forall a b, P [a; b]) ->
  (forall a b c l, P l -> P (a :: b :: c :: l)) -> forall l, P l.
Proof.
  intros H0 H1 H2 H3.
  fix IH 1. intros [|a [|b [|c l]]].
  - exact H0.
  - exact (H1 a).
  - exact (H2 a b).
  - exact (H3 a b c l (IH l)).
Qed.

(** Rewrites the digit of a six-bit value [n], given [H : n < 64]. *)
Ltac digits H :=
  match type of H with
  | (?n < 64)%N =>
      let Hv := fresh in let Hp := fresh in
      destruct (value_digit n H) as [Hv Hp]; rewrite ?Hv, ?Hp; clear Hv Hp
  end.

(** Decoding gives back the bytes that were encoded. *)
Theorem decode_encode bs : decode (encode bs) = Some bs.
Proof.
  induction bs as [|a|a b|a b c l IH] using list_ind3.
  - reflexivity.
  - pose proof (to_N_lt a) as Ha.
    destruct (arith1 _ Ha) as (H1 & H2 & E1 & E2). cbv zeta in *.
    cbn [encode decode].
    digits H1. digits H2.
    rewrite ?Ascii.eqb_refl, E1, E2, byte_of_to_N. reflexivity.
  - pose proof (to_N_lt a) as Ha. pose proof (to_N_lt b) as Hb.
    destruct (arith2 _ _ Ha Hb) as (H1 & H2 & H3 & E1 & E2 & E3). cbv zeta in *.
    cbn [encode decode].
    digits H1. digits H2. digits H3.
    rewrite ?Ascii.eqb_refl, E1, E2, E3, !byte_of_to_N. reflexivity.
  - pose proof (to_N_lt a) as Ha. pose proof (to_N_lt b) as Hb.
    pose proof (to_N_lt c) as Hc.
    destruct (arith3 _ _ _ Ha Hb Hc) as (H1 & H2 & H3 & H4 & E1 & E2 & E3).
    cbv zeta in *.
    cbn [encode decode].
    digits H1. digits H2. digits H3. digits H4.
    rewrite E1, E2, E3, IH, !byte_of_to_N. reflexivity.
Qed.

End Base64Facts.

(** ** Facts about the percent-encoding *)

Lemma hex_digit_inj j k :
  (j < 16)%N -> (k < 16)%N -> JS.hex_digit j = JS.hex_digit k -> j = k.
Proof.
  intros Hj Hk.
  destruct j as [|p]; [|do 4 (try destruct p as [p|p|]); try (exfalso; lia)];
  (destruct k as [|q]; [|do 4 (try destruct q as [q|q|]); try (exfalso; lia)]);
  cbn; intros E; try reflexivity; discriminate E.
Qed.

(** The two hexadecimal digits of a byte. *)
Lemma nibbles c :
  (N_of_ascii c / 16 < 16 /\ N_of_ascii c mod 16 < 16)%N.
Proof.
  pose proof (N_ascii_bounded c). split.
  - apply N.Div0.div_lt_upper_bound. lia.
  - apply N.mod_lt. lia.
Qed.

(** The percent-encoded form stands for one string only. *)
Lemma percent_encode_inj s1 : forall s2,
  JS.percent_encode s1 = JS.percent_encode s2 -> s1 = s2.
Proof.
  induction s1 as [|a s1 IH]; intros [|b s2]; cbn.
  - reflexivity.
  - destruct (JS.uri_unreserved b); discriminate.
  - destruct (JS.uri_unreserved a); discriminate.
  - destruct (JS.uri_unreserved a) eqn:Ha, (JS.uri_unreserved b) eqn:Hb;
      intros E; inversion E; subst.
    + f_equal. auto.
    + discriminate Ha.
    + discriminate Hb.
    + destruct (nibbles a) as [Ha1 Ha2]. destruct (nibbles b) as [Hb1 Hb2].
      match goal with
      | H1 : JS.hex_digit (_ / 16) = _, H2 : JS.hex_digit (_ mod 16) = _
        |- _ =>
          apply hex_digit_inj in H1; [|assumption..];
          apply hex_digit_inj in H2; [|assumption..];
          assert (En : N_of_ascii a = N_of_ascii b)
            by (rewrite (N.div_mod (N_of_ascii a) 16),
                  (N.div_mod (N_of_ascii b) 16), H1, H2 by lia; reflexivity)
      end.
      f_equal; [|auto].
      now rewrite <- (ascii_N_embedding a), <- (ascii_N_embedding b), En.
Qed.

(** ** Facts about the runs of the handlers *)

Lemma accepted_reports_image {D} (r : promise (Response D)) ct :
  accepted r = Some ct -> reports_image r = true.
Proof.
  destruct r as [resp|m]; cbn; [|discriminate].
  destruct (ok resp); [|discriminate].
  destruct (JS.startsWith _ _); [reflexivity|discriminate].
Qed.

Section Loop.
Context (Wd : World Refined.SearchData).
Import Refined.

(** One turn of the loop: one HEAD check, logged with its reply, and a
    [break] exactly when the reply is accepted. *)
Lemma check_item_run item w log :
  exists r w',
    fetch Wd w (link item) head_init = (r, w') /\
    try_catch Wd (check_item Wd item) (fun _ => ret Wd Continue) (w, log)
    = (Normal match accepted r with
              | Some ct => Break (mkLocals (link item) (title item) true ct)
              | None => Continue
              end,
       (w', (log ++ [head_event (item, r)])%list)).
Proof.
  unfold try_catch, check_item, bind, await_fetch, head_event. cbn [fst snd].
  destruct (fetch Wd w (link item) head_init) as [r w'] eqn:E.
  exists r, w'. split; [reflexivity|].
  destruct r as [resp|m]; cbn [await accepted]; unfold ret, throw;
    [|reflexivity].
  destruct (ok resp); [|reflexivity]. cbv zeta.
  destruct (JS.startsWith _ _); reflexivity.
Qed.

(** The loop never throws; it probes the candidates in order up to the
    first accepted one, or all of them. *)
Lemma check_items_run items : forall v w log,
  exists v' w' probes,
    check_items Wd items v (w, log)
    = (Normal v', (w', (log ++ map head_event probes)%list)) /\
    ((exists pre item r ct post,
        items = (map fst pre ++ item :: post)%list /\
        probes = (pre ++ [(item, r)])%list /\
        Forall (fun p => accepted (snd p) = None) pre /\
        accepted r = Some ct /\
        v' = mkLocals (link item) (title item) true ct)
     \/ (map fst probes = items /\
         Forall (fun p => accepted (snd p) = None) probes /\
         v' = v)).
Proof.
  induction items as [|item rest IH]; intros v w log.
  - exists v, w, []. cbn. rewrite app_nil_r. split; [reflexivity|].
    right. repeat split. constructor.
  - destruct (check_item_run item w log) as (r & w1 & Hf & Hrun).
    cbn [check_items]. unfold bind at 1. rewrite Hrun.
    destruct (accepted r) as [ct|] eqn:Hacc.
    + exists (mkLocals (link item) (title item) true ct), w1, [(item, r)].
      split; [reflexivity|]. left.
      exists [], item, r, ct, rest. repeat split; auto.
    + destruct (IH v w1 (log ++ [head_event (item, r)])%list)
        as (v' & w' & probes & Hrest & Hcases).
      exists v', w', ((item, r) :: probes). split.
      * rewrite Hrest. cbn [map]. now rewrite <- app_assoc.
      * destruct Hcases
          as [(pre & it & r' & ct & post & Hi & Hp & Hrej & Ha & Hv)
             |(Hm & Hrej & Hv)].
        -- left. exists ((item, r) :: pre), it, r', ct, post.
           subst. repeat split; auto.
        -- right. subst. repeat split; auto.
Qed.
End Loop.

(** A content type that begins with [image/] was not the default. *)
Lemma or_default_image o d ct :
  JS.startsWith d "image/" = false ->
  JS.or_default o d = ct -> JS.startsWith ct "image/" = true ->
  o = Some ct.
Proof.
  intros Hd E H. destruct o as [[|c s]|]; cbn in E; subst; try congruence.
Qed.

Section RefinedRuns.
Context (Wd : World Refined.SearchData) (GOOGLE_API_KEY GOOGLE_CX : string).
Import Refined.

Local Abbreviation find_meme := (Refined.find_meme Wd GOOGLE_API_KEY GOOGLE_CX).
Local Abbreviation search_url := (Refined.search_url GOOGLE_API_KEY GOOGLE_CX).


(** What a response with status 200 says about the run that produced it. *)
Lemma refined_success req_body w resp w' log :
  find_meme req_body w = (resp, (w', log)) ->
  status resp = 200%Z ->
  exists text completion choice w1 searchResponse w2 searchData items
         v w3 probes imageResponse ct bytes,
    Refined.text req_body = Some text /\ text <> EmptyString /\
    chat_create Wd w (model_of req_body) (chat_messages text)
      = (Resolved completion, w1) /\
    nth_error (choices completion) 0 = Some choice /\
    let searchQuery := refine_query (message_content choice) text in
    fetch Wd w1 (search_url searchQuery) no_init
      = (Resolved searchResponse, w2) /\
    ok searchResponse = true /\
    json searchResponse = Resolved searchData /\
    Refined.items searchData = Some items /\
    check_items Wd items initial_locals
      (w2, [ChatCreate (model_of req_body) (chat_messages text)
              (Resolved completion);
            Fetch (search_url searchQuery) no_init (Resolved searchResponse)])
    = (Normal v,
       (w3, ([ChatCreate (model_of req_body) (chat_messages text)
                (Resolved completion);
              Fetch (search_url searchQuery) no_init
                (Resolved searchResponse)]
             ++ map head_event probes)%list)) /\
    found v = true /\
    fetch Wd w3 (imageUrl v) image_init = (Resolved imageResponse, w') /\
    ok imageResponse = true /\
    content_type imageResponse = Some ct /\
    JS.startsWith ct "image/" = true /\
    arrayBuffer imageResponse = Resolved bytes /\
    log = ([ChatCreate (model_of req_body) (chat_messages text)
              (Resolved completion);
            Fetch (search_url searchQuery) no_init (Resolved searchResponse)]
           ++ map head_event probes
           ++ [Fetch (imageUrl v) image_init
                 (Resolved imageResponse)])%list /\
    resp = res_json
             (Envelope.mk true
                (num_or_zero (option_map total_tokens (usage completion)))
                [Artifact.mk
                   ("meme_" ++ JS.number_to_string (now Wd w') ++ "."
                      ++ extension ct)
                   "image" (Base64.encode bytes) ct]
                (stringify_responseData (imageUrl v) (imageTitle v)
                   searchQuery)).
Proof.
  intros H Hs.
  unfold Refined.find_meme, route, settle, find_meme_body in H.
  cbv zeta in H.
  destruct (Refined.text req_body) as [[|c0 t0]|] eqn:Ht;
    try (cbn in H; inversion H; subst; discriminate Hs).
  set (text := String c0 t0) in *.
  unfold bind at 1, await_chat_create in H.
  destruct (chat_create Wd w (model_of req_body) (chat_messages text))
    as [[completion|m] w1] eqn:Hc; cbn [await] in H;
    [|cbn in H; inversion H; subst; discriminate Hs].
  unfold ret at 1 in H. cbn [app] in H.
  destruct (choices completion) as [|choice chs] eqn:Hch;
    [cbn in H; inversion H; subst; discriminate Hs|].
  set (q := refine_query (message_content choice) text) in *.
  unfold bind at 1, call, JS.encodeURIComponent in H.
  destruct (JS.lone_surrogate q) eqn:Hls;
    [cbn in H; inversion H; subst; discriminate Hs|].
  unfold ret at 1 in H. cbv zeta in H.
  change (search_template GOOGLE_API_KEY GOOGLE_CX (JS.percent_encode q))
    with (search_url q) in H.
  unfold bind at 1, await_fetch in H.
  destruct (fetch Wd w1 (search_url q) no_init)
    as [[sr|m] w2] eqn:Hf; cbn [await] in H;
    [|cbn in H; inversion H; subst; discriminate Hs].
  unfold ret at 1 in H. cbn [app] in H.
  destruct (ok sr) eqn:Hok; cbn [negb] in H;
    [|cbn in H; inversion H; subst; discriminate Hs].
  unfold bind at 1 in H.
  destruct (json sr) as [sd|m] eqn:Hj; cbn [await] in H;
    [|cbn in H; inversion H; subst; discriminate Hs].
  unfold ret at 1 in H.
  destruct (Refined.items sd) as [[|i0 its]|] eqn:Hit;
    try (cbn in H; inversion H; subst; discriminate Hs).
  set (items := i0 :: its) in *.
  unfold bind at 1 in H.
  match type of H with context [check_items Wd items initial_locals ?s] =>
    destruct (check_items_run Wd items initial_locals w2 (snd s))
      as (v & w3 & probes & Hloop & _)
  end.
  cbn [snd] in Hloop. rewrite Hloop in H.
  destruct (found v) eqn:Hfound; cbn [negb] in H;
    [|cbn in H; inversion H; subst; discriminate Hs].
  unfold bind at 1, await_fetch in H.
  destruct (fetch Wd w3 (imageUrl v) image_init)
    as [[ir|m] w4] eqn:Hg; cbn [await] in H;
    [|cbn in H; inversion H; subst; discriminate Hs].
  unfold ret at 1 in H.
  destruct (ok ir) eqn:Hok2; cbn [negb] in H;
    [|cbn in H; inversion H; subst; discriminate Hs].
  cbv zeta in H.
  destruct (JS.startsWith (JS.or_default (content_type ir)
                             "application/octet-stream") "image/") eqn:Hsw;
    cbn [negb] in H; [|cbn in H; inversion H; subst; discriminate Hs].
  unfold bind at 1 in H.
  destruct (arrayBuffer ir) as [bytes|m] eqn:Hab; cbn [await] in H;
    [|cbn in H; inversion H; subst; discriminate Hs].
  unfold ret at 1, bind, Date_now, ret in H.
  assert (Hct := or_default_image (content_type ir)
                  "application/octet-stream" _ eq_refl eq_refl Hsw).
  remember (JS.or_default (content_type ir) "application/octet-stream") as ct.
  inversion H; subst resp w4 log. clear H.
  exists text, completion, choice, w1, sr, w2, sd, items, v, w3, probes, ir,
    ct, bytes.
  rewrite Hch. cbn [nth_error]. fold q.
  repeat (split; [first [assumption | reflexivity | discriminate]|]).
  reflexivity.
Qed.
End RefinedRuns.

Section SimpleRuns.
Context (Wd : World Simple.GiphyData) (GIPHY_API_KEY : string).
Import Simple.

Local Abbreviation find_meme := (Simple.find_meme Wd GIPHY_API_KEY).
Local Abbreviation search_url := (Simple.search_url GIPHY_API_KEY).


(** The same for the simple variant. *)
Lemma simple_success req_body w resp w' log :
  find_meme req_body w = (resp, (w', log)) ->
  status resp = 200%Z ->
  exists d response w1 giphy gif gifs imageUrl imageResponse bytes,
    description_of req_body = Some d /\ d <> EmptyString /\
    fetch Wd w (search_url d) no_init = (Resolved response, w1) /\
    ok response = true /\
    json response = Resolved giphy /\
    data giphy = Some (gif :: gifs) /\
    original_url gif = Some imageUrl /\ imageUrl <> EmptyString /\
    fetch Wd w1 imageUrl no_init = (Resolved imageResponse, w') /\
    ok imageResponse = true /\
    arrayBuffer imageResponse = Resolved bytes /\
    log = [Fetch (search_url d) no_init (Resolved response);
           Fetch imageUrl no_init (Resolved imageResponse)] /\
    resp = res_json
             (Envelope.mk true 0
                [Artifact.mk
                   ("meme_" ++ JS.number_to_string (now Wd w') ++ ".gif")
                   "image" (Base64.encode bytes)
                   (JS.or_default (content_type imageResponse) "image/gif")]
                (stringify_responseData imageUrl (title gif) d)).
Proof.
  intros H Hs.
  unfold Simple.find_meme, route, settle, find_meme_body in H.
  destruct (description_of req_body) as [[|c0 d0]|] eqn:Hd;
    try (cbn in H; inversion H; subst; discriminate Hs).
  set (d := String c0 d0) in *.
  unfold bind at 1, call, JS.encodeURIComponent in H.
  destruct (JS.lone_surrogate d) eqn:Hls;
    [cbn in H; inversion H; subst; discriminate Hs|].
  unfold ret at 1 in H. cbv zeta in H.
  change (search_template GIPHY_API_KEY (JS.percent_encode d))
    with (search_url d) in H.
  unfold bind at 1, await_fetch in H.
  destruct (fetch Wd w (search_url d) no_init)
    as [[response|m] w1] eqn:Hf; cbn [await] in H;
    [|cbn in H; inversion H; subst; discriminate Hs].
  unfold ret at 1 in H. cbn [app] in H.
  destruct (ok response) eqn:Hok; cbn [negb] in H;
    [|cbn in H; inversion H; subst; discriminate Hs].
  unfold bind at 1 in H.
  destruct (json response) as [giphy|m] eqn:Hj; cbn [await] in H;
    [|cbn in H; inversion H; subst; discriminate Hs].
  unfold ret at 1 in H.
  destruct (data giphy) as [[|gif gifs]|] eqn:Hdata;
    try (cbn in H; inversion H; subst; discriminate Hs).
  destruct (original_url gif) as [[|c1 u1]|] eqn:Hurl;
    try (cbn in H; inversion H; subst; discriminate Hs).
  set (imageUrl := String c1 u1) in *.
  unfold bind at 1, await_fetch in H.
  destruct (fetch Wd w1 imageUrl no_init)
    as [[ir|m] w2] eqn:Hg; cbn [await] in H;
    [|cbn in H; inversion H; subst; discriminate Hs].
  unfold ret at 1 in H. cbn [app] in H.
  destruct (ok ir) eqn:Hok2; cbn [negb] in H;
    [|cbn in H; inversion H; subst; discriminate Hs].
  cbv zeta in H. unfold bind at 1 in H.
  destruct (arrayBuffer ir) as [bytes|m] eqn:Hab; cbn [await] in H;
    [|cbn in H; inversion H; subst; discriminate Hs].
  unfold ret at 1, bind, Date_now, ret in H.
  inversion H; subst resp w2 log. clear H.
  exists d, response, w1, giphy, gif, gifs, imageUrl, ir, bytes.
  repeat (split; [first [assumption | reflexivity | discriminate]|]).
  reflexivity.
Qed.
End SimpleRuns.

(** ** The log only grows *)

Section Growth.
Context {D : Type} (Wd : World D).

Lemma grows_ret {A} (a : A) : grows Wd (ret Wd a).
Proof. intros w log. exists []. cbn. now rewrite app_nil_r. Qed.

Lemma grows_throw {A} m : grows Wd (@throw D Wd A m).
Proof. intros w log. exists []. cbn. now rewrite app_nil_r. Qed.

Lemma grows_return {A} r : grows Wd (@return_ D Wd A r).
Proof. intros w log. exists []. cbn. now rewrite app_nil_r. Qed.

Lemma grows_await {A} (p : promise A) : grows Wd (await Wd p).
Proof. destruct p; [apply grows_ret | apply grows_throw]. Qed.

Lemma grows_Date_now : grows Wd (Date_now Wd).
Proof. intros w log. exists []. cbn. now rewrite app_nil_r. Qed.

Lemma grows_fetch url init : grows Wd (await_fetch Wd url init).
Proof.
  intros w log. unfold await_fetch.
  destruct (fetch Wd w url init) as [r w'].
  exists [Fetch url init r]. destruct r; reflexivity.
Qed.

Lemma grows_chat model messages :
  grows Wd (await_chat_create Wd model messages).
Proof.
  intros w log. unfold await_chat_create.
  destruct (chat_create Wd w model messages) as [r w'].
  exists [ChatCreate model messages r]. destruct r; reflexivity.
Qed.

Lemma grows_bind {A B} (c : M Wd A) (k : A -> M Wd B) :
  grows Wd c -> (forall a, grows Wd (k a)) -> grows Wd (bind Wd c k).
Proof.
  intros Hc Hk w log. unfold bind.
  destruct (Hc w log) as [more1 E1].
  destruct (c (w, log)) as [[a|m|r] [w1 log1]]; cbn in E1; subst log1.
  - destruct (Hk a w1 (log ++ more1)%list) as [more2 E2].
    exists (more1 ++ more2)%list. now rewrite E2, app_assoc.
  - now exists more1.
  - now exists more1.
Qed.

Lemma grows_try_catch {A} (c : M Wd A) (h : string -> M Wd A) :
  grows Wd c -> (forall m, grows Wd (h m)) -> grows Wd (try_catch Wd c h).
Proof.
  intros Hc Hh w log. unfold try_catch.
  destruct (Hc w log) as [more1 E1].
  destruct (c (w, log)) as [[a|m|r] [w1 log1]]; cbn in E1; subst log1.
  - now exists more1.
  - destruct (Hh m w1 (log ++ more1)%list) as [more2 E2].
    exists (more1 ++ more2)%list. now rewrite E2, app_assoc.
  - now exists more1.
Qed.

End Growth.

(** Decomposes a goal [grows Wd c] along the syntax of [c]. *)
Ltac grows_step :=
  first
    [ apply grows_ret | apply grows_throw | apply grows_return
    | apply grows_await | apply grows_Date_now | apply grows_fetch
    | apply grows_chat
    | apply grows_bind; [| intros ?]
    | apply grows_try_catch; [| intros ?]
    | match goal with
      | |- grows _ (match ?x with _ => _ end) => destruct x
      | |- grows _ (if ?b then _ else _) => destruct b
      end ].

(** ** The refined variant, followed forwards *)

Section RefinedForward.
Context (Wd : World Refined.SearchData) (GOOGLE_API_KEY GOOGLE_CX : string).
Import Refined.

Local Abbreviation find_meme := (Refined.find_meme Wd GOOGLE_API_KEY GOOGLE_CX).
Local Abbreviation search_url := (Refined.search_url GOOGLE_API_KEY GOOGLE_CX).

Lemma grows_check_items items v : grows Wd (check_items Wd items v).
Proof.
  intros w log.
  destruct (check_items_run Wd items v w log) as (v' & w' & probes & E & _).
  exists (map head_event probes). now rewrite E.
Qed.

(** Once the completion has resolved with a first choice, a refined query
    that [encodeURIComponent] refuses ends the run in the outer [catch],
    before any search request. *)
Lemma refined_uri_error req_body w t completion w1 choice chs :
  text req_body = Some t -> t <> EmptyString ->
  chat_create Wd w (model_of req_body) (chat_messages t)
    = (Resolved completion, w1) ->
  choices completion = choice :: chs ->
  JS.lone_surrogate (refine_query (message_content choice) t) = true ->
  find_meme req_body w
  = (res_status_json 500 "URI malformed",
     (w1, [ChatCreate (model_of req_body) (chat_messages t)
             (Resolved completion)])).
Proof.
  intros Ht Hne Hc Hch Hls.
  unfold Refined.find_meme, route, find_meme_body. rewrite Ht.
  destruct t as [|c0 t0]; [congruence|]. cbv zeta.
  unfold bind at 1, await_chat_create. rewrite Hc. cbn [await app].
  unfold ret at 1. rewrite Hch.
  unfold bind at 1, call, JS.encodeURIComponent. rewrite Hls.
  reflexivity.
Qed.

(** Otherwise the handler sends the search request for the refined query,
    and everything else it does comes after that in the log. *)
Lemma refined_to_search req_body w t completion w1 choice chs :
  text req_body = Some t -> t <> EmptyString ->
  chat_create Wd w (model_of req_body) (chat_messages t)
    = (Resolved completion, w1) ->
  choices completion = choice :: chs ->
  JS.lone_surrogate (refine_query (message_content choice) t) = false ->
  exists r w2 resp w' more,
    fetch Wd w1 (search_url (refine_query (message_content choice) t)) no_init
      = (r, w2) /\
    find_meme req_body w
    = (resp,
       (w', ChatCreate (model_of req_body) (chat_messages t)
              (Resolved completion)
            :: Fetch (search_url (refine_query (message_content choice) t))
                 no_init r
            :: more)).
Proof.
  intros Ht Hne Hc Hch Hls.
  unfold Refined.find_meme, route, find_meme_body. rewrite Ht.
  destruct t as [|c0 t0]; [congruence|]. cbv zeta.
  set (t := String c0 t0) in *.
  unfold bind at 1, await_chat_create. rewrite Hc. cbn [await app].
  unfold ret at 1. rewrite Hch.
  set (q := refine_query (message_content choice) t) in *.
  unfold bind at 1, call, JS.encodeURIComponent. rewrite Hls.
  unfold ret at 1.
  change (search_template GOOGLE_API_KEY GOOGLE_CX (JS.percent_encode q))
    with (search_url q).
  match goal with
  | |- context [bind Wd (await_fetch Wd (search_url q) no_init) ?k] =>
      set (K := k)
  end.
  assert (HK : forall sr, grows Wd (K sr)).
  { intros sr. subst K. cbv beta.
    repeat first [apply grows_check_items | grows_step]. }
  unfold bind, await_fetch.
  destruct (fetch Wd w1 (search_url q) no_init) as [[sr|m] w2] eqn:Hf;
    cbn [await]; unfold ret, throw.
  - destruct (HK sr w2
                [ChatCreate (model_of req_body) (chat_messages t)
                   (Resolved completion);
                 Fetch (search_url q) no_init (Resolved sr)])
      as [more Hmore].
    destruct (K sr _) as [[resp|m|resp] [w' log']];
      cbn [snd] in Hmore; subst log'; cbn [settle app];
      exists (Resolved sr), w2; do 3 eexists; split; reflexivity.
  - cbn [settle]. do 5 eexists. split; reflexivity.
Qed.

(** The run from the candidate loop on, when the search has delivered the
    candidate list [its]. *)
Lemma refined_from_loop req_body w t completion w1 choice chs sr w2 sd its :
  text req_body = Some t -> t <> EmptyString ->
  chat_create Wd w (model_of req_body) (chat_messages t)
    = (Resolved completion, w1) ->
  choices completion = choice :: chs ->
  JS.lone_surrogate (refine_query (message_content choice) t) = false ->
  fetch Wd w1 (search_url (refine_query (message_content choice) t)) no_init
    = (Resolved sr, w2) ->
  ok sr = true -> json sr = Resolved sd -> items sd = Some its ->
  forall v w3 log3,
    check_items Wd its initial_locals
      (w2, [ChatCreate (model_of req_body) (chat_messages t)
              (Resolved completion);
            Fetch (search_url (refine_query (message_content choice) t))
              no_init (Resolved sr)])
    = (Normal v, (w3, log3)) ->
    if found v then
      exists r w4 resp,
        fetch Wd w3 (imageUrl v) image_init = (r, w4) /\
        find_meme req_body w
        = (resp, (w4, (log3 ++ [Fetch (imageUrl v) image_init r])%list))
    else
      exists message,
        find_meme req_body w = (res_status_json 404 message, (w3, log3)).
Proof.
  intros Ht Hne Hc Hch Hls Hf Hok Hj Hit v w3 log3 Hloop.
  remember (find_meme req_body w) as R eqn:HR.
  unfold Refined.find_meme, route, find_meme_body in HR. rewrite Ht in HR.
  destruct t as [|c0 t0]; [congruence|]. cbv zeta in HR.
  set (t := String c0 t0) in *.
  unfold bind at 1, await_chat_create in HR. rewrite Hc in HR.
  cbn [await app] in HR. unfold ret at 1 in HR. rewrite Hch in HR.
  unfold bind at 1, call, JS.encodeURIComponent in HR. rewrite Hls in HR.
  unfold ret at 1 in HR.
  change (search_template GOOGLE_API_KEY GOOGLE_CX
            (JS.percent_encode (refine_query (message_content choice) t)))
    with (search_url (refine_query (message_content choice) t)) in HR.
  unfold bind at 1, await_fetch in HR. rewrite Hf in HR.
  cbn [await app] in HR. unfold ret at 1 in HR. rewrite Hok in HR.
  cbn [negb] in HR. unfold bind at 1 in HR. rewrite Hj in HR.
  cbn [await] in HR. unfold ret at 1 in HR. rewrite Hit in HR.
  destruct its as [|i0 its].
  - cbn [check_items] in Hloop. unfold ret in Hloop.
    inversion Hloop; subst v w3 log3.
    change (found initial_locals) with false. cbv iota.
    eexists. exact HR.
  - unfold bind at 1 in HR. rewrite Hloop in HR.
    destruct (found v); cbn [negb] in HR; [|eexists; exact HR].
    unfold bind at 1, await_fetch in HR.
    destruct (fetch Wd w3 (imageUrl v) image_init) as [[ir|m] w4];
      cbn [await] in HR; unfold ret at 1, throw in HR.
    + exists (Resolved ir), w4.
      destruct (ok ir); cbn [negb] in HR;
        [|eexists; split; [reflexivity|exact HR]].
      cbv zeta in HR.
      destruct (negb _); [eexists; split; [reflexivity|exact HR]|].
      unfold bind at 1 in HR. destruct (arrayBuffer ir); cbn [await] in HR;
        unfold ret at 1, throw in HR; eexists; (split; [reflexivity|exact HR]).
    + exists (Rejected m), w4. eexists. split; [reflexivity|exact HR].
Qed.

End RefinedForward.

(** ** The candidate loop, the not-found branch and the refined query *)

Section RefinedClaims.
Context (Wd : World Refined.SearchData) (GOOGLE_API_KEY GOOGLE_CX : string).
Import Refined.

Local Abbreviation find_meme := (Refined.find_meme Wd GOOGLE_API_KEY GOOGLE_CX).
Local Abbreviation search_url := (Refined.search_url GOOGLE_API_KEY GOOGLE_CX).

(** C4. In the refined variant, for every candidate list [its] the search
    delivers, the HEAD checks in the log are those of a prefix of [its], in
    list order and one per candidate. Either the last candidate probed is the
    first whose check resolves [ok] with a content type beginning with
    [image/], every candidate before it was rejected (its check rejected,
    timed out, was not [ok] or reported another type) and probed once, and
    the only call after it is the download of that candidate; or every
    candidate was probed once and rejected, and nothing follows. The search
    is only made for a query that [encodeURIComponent] accepts: with a lone
    surrogate in the query the run ends with status 500 after the completion
    call, and no candidate is probed at all. *)
Theorem candidates_probed_in_order
  req_body w t completion w1 choice chs sr w2 sd its :
  text req_body = Some t -> t <> EmptyString ->
  chat_create Wd w (model_of req_body) (chat_messages t)
    = (Resolved completion, w1) ->
  choices completion = choice :: chs ->
  fetch Wd w1 (search_url (refine_query (message_content choice) t)) no_init
    = (Resolved sr, w2) ->
  ok sr = true -> json sr = Resolved sd -> items sd = Some its ->
  if JS.lone_surrogate (refine_query (message_content choice) t) then
    find_meme req_body w
    = (mkHttp 500 (ErrorBody "URI malformed"),
       (w1, [ChatCreate (model_of req_body) (chat_messages t)
               (Resolved completion)]))
  else
    exists resp w' probes tail,
      find_meme req_body w
      = (resp,
         (w', ([ChatCreate (model_of req_body) (chat_messages t)
                  (Resolved completion);
                Fetch (search_url (refine_query (message_content choice) t))
                  no_init (Resolved sr)]
               ++ map head_event probes ++ tail)%list)) /\
      ((exists pre item r ct post r',
          its = (map fst pre ++ item :: post)%list /\
          probes = (pre ++ [(item, r)])%list /\
          Forall (fun p => accepted (snd p) = None) pre /\
          accepted r = Some ct /\
          tail = [Fetch (link item) image_init r'])
       \/ (map fst probes = its /\
           Forall (fun p => accepted (snd p) = None) probes /\
           tail = [] /\ status resp = 404%Z)).
Proof.
  intros Ht Hne Hc Hch Hf Hok Hj Hit.
  destruct (JS.lone_surrogate (refine_query (message_content choice) t))
    eqn:Hls.
  { exact (refined_uri_error Wd GOOGLE_API_KEY GOOGLE_CX _ _ _ _ _ _ _
             Ht Hne Hc Hch Hls). }
  destruct (check_items_run Wd its initial_locals w2
              [ChatCreate (model_of req_body) (chat_messages t)
                 (Resolved completion);
               Fetch (search_url (refine_query (message_content choice) t))
                 no_init (Resolved sr)])
    as (v & w3 & probes & Hloop & Hcases).
  pose proof (refined_from_loop Wd GOOGLE_API_KEY GOOGLE_CX _ _ _ _ _ _ _ _ _
                _ _ Ht Hne Hc Hch Hls Hf Hok Hj Hit _ _ _ Hloop) as Hrun.
  destruct Hcases as [(pre & item & r & ct & post & Hi & Hp & Hrej & Ha & Hv)
                     |(Hm & Hrej & Hv)].
  - subst v. cbn [found imageUrl] in Hrun.
    destruct Hrun as (r' & w4 & resp & _ & Hrun).
    exists resp, w4, probes, [Fetch (link item) image_init r']. split.
    + rewrite Hrun. now rewrite <- app_assoc.
    + left. exists pre, item, r, ct, post, r'. repeat split; assumption.
  - subst v. change (found initial_locals) with false in Hrun. cbv iota in Hrun.
    destruct Hrun as (message & Hrun).
    exists (res_status_json 404 message), w3, probes, []. split.
    + rewrite Hrun. now rewrite app_nil_r.
    + right. repeat split; assumption.
Qed.

(** C5. In the refined variant, when the search has delivered the candidate
    list [its] and no HEAD check of the run reports a content type beginning
    with [image/], the response has status 404, the log holds no image
    download, and the log is the completion call, the search request and one
    HEAD check per candidate. The search is only made for a query that
    [encodeURIComponent] accepts: with a lone surrogate in the query the run
    ends with status 500 after the completion call, and here too nothing is
    downloaded. *)
Theorem no_image_candidate_is_not_found
  req_body w t completion w1 choice chs sr w2 sd its resp w' log :
  text req_body = Some t -> t <> EmptyString ->
  chat_create Wd w (model_of req_body) (chat_messages t)
    = (Resolved completion, w1) ->
  choices completion = choice :: chs ->
  fetch Wd w1 (search_url (refine_query (message_content choice) t)) no_init
    = (Resolved sr, w2) ->
  ok sr = true -> json sr = Resolved sd -> items sd = Some its ->
  find_meme req_body w = (resp, (w', log)) ->
  (forall url r,
     In (Fetch url head_init r) log -> reports_image r = false) ->
  if JS.lone_surrogate (refine_query (message_content choice) t) then
    resp = mkHttp 500 (ErrorBody "URI malformed") /\
    log = [ChatCreate (model_of req_body) (chat_messages t)
             (Resolved completion)]
  else
    status resp = 404%Z /\
    (forall url r, ~ In (Fetch url image_init r) log) /\
    exists probes,
      map fst probes = its /\
      log = ([ChatCreate (model_of req_body) (chat_messages t)
                (Resolved completion);
              Fetch (search_url (refine_query (message_content choice) t))
                no_init (Resolved sr)]
             ++ map head_event probes)%list.
Proof.
  intros Ht Hne Hc Hch Hf Hok Hj Hit Hrun Hnone.
  destruct (JS.lone_surrogate (refine_query (message_content choice) t))
    eqn:Hls.
  { rewrite (refined_uri_error Wd GOOGLE_API_KEY GOOGLE_CX _ _ _ _ _ _ _
               Ht Hne Hc Hch Hls) in Hrun.
    inversion Hrun. split; reflexivity. }
  destruct (check_items_run Wd its initial_locals w2
              [ChatCreate (model_of req_body) (chat_messages t)
                 (Resolved completion);
               Fetch (search_url (refine_query (message_content choice) t))
                 no_init (Resolved sr)])
    as (v & w3 & probes & Hloop & Hcases).
  pose proof (refined_from_loop Wd GOOGLE_API_KEY GOOGLE_CX _ _ _ _ _ _ _ _ _
                _ _ Ht Hne Hc Hch Hls Hf Hok Hj Hit _ _ _ Hloop) as Hfwd.
  destruct Hcases as [(pre & item & r & ct & post & Hi & Hp & Hrej & Ha & Hv)
                     |(Hm & Hrej & Hv)].
  - exfalso. subst v. cbn [found imageUrl] in Hfwd.
    destruct Hfwd as (r' & w4 & resp' & _ & Hfwd).
    rewrite Hfwd in Hrun. inversion Hrun; subst resp' w4 log.
    apply accepted_reports_image in Ha.
    rewrite (Hnone (link item) r) in Ha; [discriminate|].
    right. right. apply in_or_app. left.
    subst probes. rewrite map_app. apply in_or_app. right. now left.
  - subst v. change (found initial_locals) with false in Hfwd.
    cbv iota in Hfwd. destruct Hfwd as (message & Hfwd).
    rewrite Hfwd in Hrun. inversion Hrun; subst resp w3 log.
    split; [reflexivity|]. split; [|now exists probes].
    intros url r Hin. destruct Hin as [Hin|[Hin|Hin]]; try discriminate Hin.
    apply in_map_iff in Hin. destruct Hin as (p & Hp & _).
    unfold head_event in Hp. discriminate Hp.
Qed.

(** C7. In the refined variant, when the completion resolves with a first
    choice, the query the code computes is the one the specification words:
    the trimmed output of the model, or the raw input text when the content
    is absent or empty after trimming. When [encodeURIComponent] accepts that
    query, the second outbound call of the run is the search request whose
    URL carries the query, percent-encoded, as its [q] parameter, and the
    encoded form stands for no other query. When the query holds a lone
    surrogate, [encodeURIComponent] throws: the run ends with status 500
    and the completion call is its only outbound call. *)
Theorem search_query_is_refined
  req_body w t completion w1 choice chs :
  text req_body = Some t -> t <> EmptyString ->
  chat_create Wd w (model_of req_body) (chat_messages t)
    = (Resolved completion, w1) ->
  choices completion = choice :: chs ->
  let q := query_per_spec (message_content choice) t in
  let url :=
    "https://www.googleapis.com/customsearch/v1?key=" ++ GOOGLE_API_KEY
      ++ "&cx=" ++ GOOGLE_CX ++ "&q=" ++ JS.percent_encode q
      ++ "&searchType=image&num=5&safe=off" in
  refine_query (message_content choice) t = q /\
  (forall q', JS.percent_encode q' = JS.percent_encode q -> q' = q) /\
  if JS.lone_surrogate q then
    find_meme req_body w
    = (mkHttp 500 (ErrorBody "URI malformed"),
       (w1, [ChatCreate (model_of req_body) (chat_messages t)
               (Resolved completion)]))
  else
    exists r w2 resp w' more,
      fetch Wd w1 url no_init = (r, w2) /\
      find_meme req_body w
      = (resp,
         (w', ChatCreate (model_of req_body) (chat_messages t)
                (Resolved completion)
              :: Fetch url no_init r
              :: more)).
Proof.
  intros Ht Hne Hc Hch q url.
  assert (E : refine_query (message_content choice) t = q).
  { subst q. unfold refine_query, query_per_spec.
    destruct (message_content choice) as [s|]; [|reflexivity].
    cbn [option_map JS.or_default]. destruct (JS.trim s); reflexivity. }
  split; [exact E|].
  split; [intros q' Hq; now apply percent_encode_inj|].
  destruct (JS.lone_surrogate q) eqn:Hls.
  - rewrite <- E in Hls.
    exact (refined_uri_error Wd GOOGLE_API_KEY GOOGLE_CX _ _ _ _ _ _ _
             Ht Hne Hc Hch Hls).
  - change url with (search_url q). rewrite <- E. rewrite <- E in Hls.
    exact (refined_to_search Wd GOOGLE_API_KEY GOOGLE_CX _ _ _ _ _ _ _
             Ht Hne Hc Hch Hls).
Qed.

(** C10. In the refined variant, a response with status 200 carries one
    artifact whose [mimeType] is the content type of the last call of the
    run, the image download, and that content type begins with [image/]; a
    run whose image download reports no content type, or one that does not
    begin with [image/], does not end with status 200. *)
Theorem mime_type_is_that_of_the_download req_body w resp w' log :
  find_meme req_body w = (resp, (w', log)) ->
  (status resp = 200%Z ->
   exists e a pre url ir ct,
     body resp = EnvelopeBody e /\
     Envelope.artifacts e = [a] /\
     log = (pre ++ [Fetch url image_init (Resolved ir)])%list /\
     content_type ir = Some ct /\
     JS.startsWith ct "image/" = true /\
     Artifact.mimeType a = ct) /\
  (forall pre url ir,
     log = (pre ++ [Fetch url image_init (Resolved ir)])%list ->
     match content_type ir with
     | None => True
     | Some ct => JS.startsWith ct "image/" = false
     end ->
     status resp <> 200%Z).
Proof.
  intros Hrun.
  assert (H200 : status resp = 200%Z ->
    exists e a pre url ir ct,
      body resp = EnvelopeBody e /\
      Envelope.artifacts e = [a] /\
      log = (pre ++ [Fetch url image_init (Resolved ir)])%list /\
      content_type ir = Some ct /\
      JS.startsWith ct "image/" = true /\
      Artifact.mimeType a = ct).
  { intros Hs.
    destruct (refined_success Wd GOOGLE_API_KEY GOOGLE_CX _ _ _ _ _ Hrun Hs)
      as (t & completion & choice & w1 & sr & w2 & sd & its & v & w3 & probes
          & ir & ct & bytes & _ & _ & _ & _ & H).
    cbv zeta in H.
    destruct H
      as (_ & _ & _ & _ & _ & _ & _ & _ & Hct & Hsw & _ & Hlog & Hresp).
    subst resp. do 2 eexists.
    eexists (_ ++ map head_event probes)%list, (imageUrl v), ir, ct.
    split; [reflexivity|]. split; [reflexivity|].
    split; [rewrite Hlog; now rewrite <- app_assoc|].
    repeat split; assumption. }
  split; [exact H200|].
  intros pre url ir Hlog Hct Hs.
  destruct (H200 Hs) as (e & a & pre' & url' & ir' & ct & _ & _ & Hlog' & Hct'
                         & Hsw & _).
  rewrite Hlog in Hlog'. apply app_inj_tail in Hlog'.
  destruct Hlog' as [_ Hev]. inversion Hev; subst ir'.
  rewrite Hct' in Hct. congruence.
Qed.

End RefinedClaims.

(** ** Properties of both variants *)

Lemma num_or_zero_total (u : option Usage) :
  num_or_zero (option_map total_tokens u)
  = match u with
    | Some x => total_tokens x
    | None => 0%Z
    end.
Proof.
  destruct u as [[n]|]; [|reflexivity]. cbn.
  destruct (Z.eqb_spec n 0); congruence.
Qed.

(** C1, as amended. A response with status 200 carries one artifact. In the
    simple variant its name is [meme_<now>.gif] whatever content type the
    image response reports, and only [mimeType] follows that header
    ([image/gif] when it is absent or empty). In the refined variant the
    content type of the image response is present, and the name is
    [meme_<now>.<ext>] with [ext] the part of that content type between its
    first and second slash, or [img] when that part is empty. *)
Theorem extension_of_the_artifact_name :
  (forall (Wd : World Simple.GiphyData) key req_body w resp w' log,
     Simple.find_meme Wd key req_body w = (resp, (w', log)) ->
     status resp = 200%Z ->
     exists e a pre url ir,
       body resp = EnvelopeBody e /\ Envelope.artifacts e = [a] /\
       log = (pre ++ [Fetch url no_init (Resolved ir)])%list /\
       Artifact.name a = "meme_" ++ JS.number_to_string (now Wd w') ++ ".gif" /\
       Artifact.mimeType a = JS.or_default (content_type ir) "image/gif") /\
  (forall (Wd : World Refined.SearchData) key cx req_body w resp w' log,
     Refined.find_meme Wd key cx req_body w = (resp, (w', log)) ->
     status resp = 200%Z ->
     exists e a pre url ir ct,
       body resp = EnvelopeBody e /\ Envelope.artifacts e = [a] /\
       log = (pre ++ [Fetch url Refined.image_init (Resolved ir)])%list /\
       content_type ir = Some ct /\
       Artifact.name a = "meme_" ++ JS.number_to_string (now Wd w') ++ "."
                  ++ Refined.extension ct /\
       Refined.extension ct
       = JS.or_default (nth_error (JS.split_slash ct) 1) "img").
Proof.
  split.
  - intros Wd key req_body w resp w' log Hrun Hs.
    destruct (simple_success Wd key _ _ _ _ _ Hrun Hs)
      as (d & sr & w1 & gd & gif & gifs & imageUrl & ir & bytes & _ & _ & _ & _
          & _ & _ & _ & _ & _ & _ & _ & Hlog & Hresp).
    subst resp. do 2 eexists.
    exists [Fetch (Simple.search_url key d) no_init (Resolved sr)], imageUrl,
      ir.
    repeat split; try reflexivity. exact Hlog.
  - intros Wd key cx req_body w resp w' log Hrun Hs.
    destruct (refined_success Wd key cx _ _ _ _ _ Hrun Hs)
      as (t & completion & choice & w1 & sr & w2 & sd & its & v & w3 & probes
          & ir & ct & bytes & _ & _ & _ & _ & H).
    cbv zeta in H.
    destruct H as (_ & _ & _ & _ & _ & _ & _ & _ & Hct & _ & _ & Hlog & Hresp).
    subst resp. do 2 eexists.
    eexists (_ ++ map head_event probes)%list, (Refined.imageUrl v), ir, ct.
    split; [reflexivity|]. split; [reflexivity|].
    split; [rewrite Hlog; now rewrite <- app_assoc|].
    repeat split; try reflexivity. exact Hct.
Qed.

(** The simple variant on a PNG: the name ends in [.gif]. *)
Lemma extension_of_the_artifact_name_witness :
  exists e a,
    body (fst (Simple.find_meme Examples.simple_world "KEY"
                 Examples.simple_request Examples.simple_png))
    = EnvelopeBody e /\
    Envelope.artifacts e = [a] /\
    Artifact.name a = "meme_1700000000000.gif" /\
    Artifact.mimeType a = "image/png".
Proof.
  destruct (proj1 extension_of_the_artifact_name Examples.simple_world "KEY"
              Examples.simple_request Examples.simple_png _ _ _
              eq_refl eq_refl)
    as (e & a & pre & url & ir & He & Ha & Hlog & Hn & Hm).
  apply app_inj_tail in Hlog. destruct Hlog as [_ Hev].
  inversion Hev; subst ir.
  exists e, a. repeat split; assumption.
Defined.

(** C1, as stated, fails in the simple variant: the image response reports
    [image/png], the artifact says so in [mimeType], and its name still ends
    in [.gif], not in the extension derived from that type. *)
Lemma extension_not_derived_in_simple_variant :
  ~ (forall (Wd : World Simple.GiphyData) key req_body w resp w' log e a,
       Simple.find_meme Wd key req_body w = (resp, (w', log)) ->
       body resp = EnvelopeBody e -> Envelope.artifacts e = [a] ->
       Artifact.name a = "meme_" ++ JS.number_to_string (now Wd w') ++ "."
                  ++ Refined.extension (Artifact.mimeType a)).
Proof.
  intros H.
  specialize (H Examples.simple_world "KEY" Examples.simple_request
                Examples.simple_png _ _ _ _ _ eq_refl eq_refl eq_refl).
  vm_compute in H. discriminate H.
Qed.

(** C2, as amended. In both variants a response with status 200 carries
    exactly one artifact, and its [base64] field decodes to exactly the bytes
    of the body of the image response, the last call of the run: to a
    non-empty byte sequence when that body is non-empty, and to none when it
    is empty. *)
Theorem artifact_decodes_to_the_image_body :
  (forall (Wd : World Simple.GiphyData) key req_body w resp w' log,
     Simple.find_meme Wd key req_body w = (resp, (w', log)) ->
     status resp = 200%Z ->
     exists e a pre url init ir bytes,
       body resp = EnvelopeBody e /\ Envelope.artifacts e = [a] /\
       log = (pre ++ [Fetch url init (Resolved ir)])%list /\
       arrayBuffer ir = Resolved bytes /\
       Base64.decode (Artifact.base64 a) = Some bytes) /\
  (forall (Wd : World Refined.SearchData) key cx req_body w resp w' log,
     Refined.find_meme Wd key cx req_body w = (resp, (w', log)) ->
     status resp = 200%Z ->
     exists e a pre url init ir bytes,
       body resp = EnvelopeBody e /\ Envelope.artifacts e = [a] /\
       log = (pre ++ [Fetch url init (Resolved ir)])%list /\
       arrayBuffer ir = Resolved bytes /\
       Base64.decode (Artifact.base64 a) = Some bytes).
Proof.
  split.
  - intros Wd key req_body w resp w' log Hrun Hs.
    destruct (simple_success Wd key _ _ _ _ _ Hrun Hs)
      as (d & sr & w1 & gd & gif & gifs & imageUrl & ir & bytes & _ & _ & _ & _
          & _ & _ & _ & _ & _ & _ & Hab & Hlog & Hresp).
    subst resp. do 2 eexists.
    exists [Fetch (Simple.search_url key d) no_init (Resolved sr)], imageUrl,
      no_init, ir, bytes.
    repeat split; try reflexivity; try assumption.
    apply Base64Facts.decode_encode.
  - intros Wd key cx req_body w resp w' log Hrun Hs.
    destruct (refined_success Wd key cx _ _ _ _ _ Hrun Hs)
      as (t & completion & choice & w1 & sr & w2 & sd & its & v & w3 & probes
          & ir & ct & bytes & _ & _ & _ & _ & H).
    cbv zeta in H.
    destruct H as (_ & _ & _ & _ & _ & _ & _ & _ & _ & _ & Hab & Hlog & Hresp).
    subst resp. do 2 eexists.
    eexists (_ ++ map head_event probes)%list, (Refined.imageUrl v),
      Refined.image_init, ir, bytes.
    split; [reflexivity|]. split; [reflexivity|].
    split; [rewrite Hlog; now rewrite <- app_assoc|].
    split; [assumption|]. apply Base64Facts.decode_encode.
Qed.

(** The refined run of five candidates: the artifact decodes to the four
    bytes of the download. *)
Lemma artifact_decodes_to_the_image_body_witness :
  exists e a,
    body (fst (Refined.find_meme Examples.refined_world "KEY" "CX"
                 Examples.refined_request Examples.refined_third))
    = EnvelopeBody e /\
    Envelope.artifacts e = [a] /\
    Base64.decode (Artifact.base64 a) = Some [xff; xd8; xff; xe0].
Proof.
  destruct (proj2 artifact_decodes_to_the_image_body Examples.refined_world
              "KEY" "CX" Examples.refined_request Examples.refined_third
              _ _ _ eq_refl eq_refl)
    as (e & a & pre & url & init & ir & bytes & He & Ha & Hlog & Hab & Hd).
  apply app_inj_tail in Hlog. destruct Hlog as [_ Hev].
  inversion Hev; subst ir. cbn in Hab. inversion Hab; subst bytes.
  exists e, a. repeat split; assumption.
Defined.

(** C2, as stated, fails in both variants: when the image response has an
    empty body the response still has status 200, and the [base64] field of
    its one artifact decodes to the empty byte sequence. *)
Lemma empty_body_gives_empty_artifact :
  ~ (forall (Wd : World Simple.GiphyData) key req_body w resp s,
       Simple.find_meme Wd key req_body w = (resp, s) ->
       status resp = 200%Z ->
       exists e a bytes,
         body resp = EnvelopeBody e /\ Envelope.artifacts e = [a] /\
         Base64.decode (Artifact.base64 a) = Some bytes /\ bytes <> [])
  /\
  ~ (forall (Wd : World Refined.SearchData) key cx req_body w resp s,
       Refined.find_meme Wd key cx req_body w = (resp, s) ->
       status resp = 200%Z ->
       exists e a bytes,
         body resp = EnvelopeBody e /\ Envelope.artifacts e = [a] /\
         Base64.decode (Artifact.base64 a) = Some bytes /\ bytes <> []).
Proof.
  split; intros H.
  - destruct (H Examples.simple_world "KEY" Examples.simple_request
                Examples.simple_empty _ _ eq_refl eq_refl)
      as (e & a & bytes & He & Ha & Hd & Hne).
    vm_compute in He. inversion He; subst e.
    vm_compute in Ha. inversion Ha; subst a.
    vm_compute in Hd. inversion Hd; subst bytes. now apply Hne.
  - destruct (H Examples.refined_world "KEY" "CX" Examples.refined_request
                Examples.refined_empty _ _ eq_refl eq_refl)
      as (e & a & bytes & He & Ha & Hd & Hne).
    vm_compute in He. inversion He; subst e.
    vm_compute in Ha. inversion Ha; subst a.
    vm_compute in Hd. inversion Hd; subst bytes. now apply Hne.
Qed.

(** C3. In both variants, a request whose description (simple variant) or
    text (refined variant) is missing or the empty string is answered with
    status 400 and an error body, and the log of outbound calls is empty
    then: no completion call, no search, no HEAD check and no download was
    made, and the world is as it was. *)
Theorem missing_text_is_a_400_without_calls :
  (forall (Wd : World Simple.GiphyData) key req_body w,
     (Simple.args req_body = None \/
      exists a, Simple.args req_body = Some a /\
                (Simple.description a = None \/
                 Simple.description a = Some EmptyString)) ->
     Simple.find_meme Wd key req_body w
     = (mkHttp 400 (ErrorBody "Missing description parameter"), (w, []))) /\
  (forall (Wd : World Refined.SearchData) key cx req_body w,
     (Refined.text req_body = None \/
      Refined.text req_body = Some EmptyString) ->
     Refined.find_meme Wd key cx req_body w
     = (mkHttp 400 (ErrorBody "Missing text parameter"), (w, []))).
Proof.
  split.
  - intros Wd key req_body w H.
    unfold Simple.find_meme, route, Simple.find_meme_body,
      Simple.description_of.
    destruct H as [->|(a & -> & [->| ->])]; reflexivity.
  - intros Wd key cx req_body w H.
    unfold Refined.find_meme, route, Refined.find_meme_body.
    destruct H as [->| ->]; reflexivity.
Qed.

(** An empty description and an absent text. *)
Lemma missing_text_is_a_400_without_calls_witness :
  Simple.find_meme Examples.simple_world "KEY"
    (Simple.mkRequest (Some (Simple.mkArgs (Some EmptyString))))
    Examples.simple_png
  = (mkHttp 400 (ErrorBody "Missing description parameter"),
     (Examples.simple_png, [])) /\
  Refined.find_meme Examples.refined_world "KEY" "CX"
    (Refined.mkRequest None (Some "gpt-4o-mini")) Examples.refined_third
  = (mkHttp 400 (ErrorBody "Missing text parameter"),
     (Examples.refined_third, [])).
Proof.
  split.
  - apply (proj1 missing_text_is_a_400_without_calls).
    right. eexists. split; [reflexivity|]. right. reflexivity.
  - apply (proj2 missing_text_is_a_400_without_calls).
    left. reflexivity.
Defined.

(** C9. In the simple variant, a request body without [args] is answered
    with status 400 and the body [{error: 'Missing description parameter'}];
    nothing is thrown, so no 500 surfaces, and no outbound call is made. *)
Theorem body_without_args_is_a_400 :
  forall (Wd : World Simple.GiphyData) key w,
    Simple.find_meme Wd key (Simple.mkRequest None) w
    = (mkHttp 400 (ErrorBody "Missing description parameter"), (w, [])).
Proof. intros Wd key w. reflexivity. Qed.

(** C6. On a response with status 200, [tokensUsed] is 0 in the simple
    variant, whose run holds no completion call; in the refined variant the
    first call of the run is the one completion call, and [tokensUsed] is the
    [total_tokens] of the usage it reports, 0 when it reports no usage. *)
Theorem tokens_used_is_the_reported_usage :
  (forall (Wd : World Simple.GiphyData) key req_body w resp w' log,
     Simple.find_meme Wd key req_body w = (resp, (w', log)) ->
     status resp = 200%Z ->
     exists e,
       body resp = EnvelopeBody e /\ Envelope.tokensUsed e = 0%Z /\
       forall model messages r, ~ In (ChatCreate model messages r) log) /\
  (forall (Wd : World Refined.SearchData) key cx req_body w resp w' log,
     Refined.find_meme Wd key cx req_body w = (resp, (w', log)) ->
     status resp = 200%Z ->
     exists e model messages completion more,
       body resp = EnvelopeBody e /\
       log = ChatCreate model messages (Resolved completion) :: more /\
       (forall model' messages' r, ~ In (ChatCreate model' messages' r) more) /\
       Envelope.tokensUsed e
       = match usage completion with
         | Some u => total_tokens u
         | None => 0%Z
         end).
Proof.
  split.
  - intros Wd key req_body w resp w' log Hrun Hs.
    destruct (simple_success Wd key _ _ _ _ _ Hrun Hs)
      as (d & sr & w1 & gd & gif & gifs & imageUrl & ir & bytes & _ & _ & _ & _
          & _ & _ & _ & _ & _ & _ & _ & Hlog & Hresp).
    subst resp log. eexists. split; [reflexivity|]. split; [reflexivity|].
    intros model messages r [Hin|[Hin|[]]]; discriminate Hin.
  - intros Wd key cx req_body w resp w' log Hrun Hs.
    destruct (refined_success Wd key cx _ _ _ _ _ Hrun Hs)
      as (t & completion & choice & w1 & sr & w2 & sd & its & v & w3 & probes
          & ir & ct & bytes & _ & _ & _ & _ & H).
    cbv zeta in H.
    destruct H as (_ & _ & _ & _ & _ & _ & _ & _ & _ & _ & _ & Hlog & Hresp).
    subst resp log. do 5 eexists.
    split; [reflexivity|]. split; [reflexivity|]. split.
    + intros model' messages' r [Hin|Hin]; [discriminate Hin|].
      apply in_app_or in Hin. destruct Hin as [Hin|[Hin|[]]];
        [|discriminate Hin].
      apply in_map_iff in Hin. destruct Hin as (p & Hp & _).
      discriminate Hp.
    + apply num_or_zero_total.
Qed.

(** The completion of the refined run reports 57 tokens. *)
Lemma tokens_used_is_the_reported_usage_witness :
  exists e,
    body (fst (Refined.find_meme Examples.refined_world "KEY" "CX"
                 Examples.refined_request Examples.refined_third))
    = EnvelopeBody e /\
    Envelope.tokensUsed e = 57%Z.
Proof.
  destruct (proj2 tokens_used_is_the_reported_usage Examples.refined_world
              "KEY" "CX" Examples.refined_request Examples.refined_third
              _ _ _ eq_refl eq_refl)
    as (e & model & messages & completion & more & He & Hlog & _ & Ht).
  inversion Hlog; subst completion.
  exists e. split; assumption.
Defined.

(** C8. In both variants, when the search response is [ok] and its result
    list is absent or empty, the response has status 404 and an error body,
    and the search request is the last outbound call of the run. The search
    is only made for a query that [encodeURIComponent] accepts: with a lone
    surrogate in the query the run ends with status 500 before it. *)
Theorem zero_results_is_a_404 :
  (forall (Wd : World Simple.GiphyData) key req_body w d sr w1 gd,
     Simple.description_of req_body = Some d -> d <> EmptyString ->
     fetch Wd w (Simple.search_url key d) no_init = (Resolved sr, w1) ->
     ok sr = true -> json sr = Resolved gd ->
     (Simple.data gd = None \/ Simple.data gd = Some []) ->
     Simple.find_meme Wd key req_body w
     = if JS.lone_surrogate d then
         (mkHttp 500 (ErrorBody "URI malformed"), (w, []))
       else
         (mkHttp 404 (ErrorBody "No meme found for this description."),
          (w1, [Fetch (Simple.search_url key d) no_init (Resolved sr)]))) /\
  (forall (Wd : World Refined.SearchData) key cx req_body w t completion w1
          choice chs sr w2 sd,
     Refined.text req_body = Some t -> t <> EmptyString ->
     chat_create Wd w (Refined.model_of req_body) (Refined.chat_messages t)
       = (Resolved completion, w1) ->
     choices completion = choice :: chs ->
     fetch Wd w1
       (Refined.search_url key cx
          (Refined.refine_query (message_content choice) t)) no_init
       = (Resolved sr, w2) ->
     ok sr = true -> json sr = Resolved sd ->
     (Refined.items sd = None \/ Refined.items sd = Some []) ->
     Refined.find_meme Wd key cx req_body w
     = if JS.lone_surrogate
            (Refined.refine_query (message_content choice) t) then
         (mkHttp 500 (ErrorBody "URI malformed"),
          (w1, [ChatCreate (Refined.model_of req_body)
                  (Refined.chat_messages t) (Resolved completion)]))
       else
         (mkHttp 404 (ErrorBody "No meme found for this description."),
          (w2, [ChatCreate (Refined.model_of req_body)
                  (Refined.chat_messages t) (Resolved completion);
                Fetch (Refined.search_url key cx
                         (Refined.refine_query (message_content choice) t))
                  no_init (Resolved sr)]))).
Proof.
  split.
  - intros Wd key req_body w d sr w1 gd Hd Hne Hf Hok Hj Hz.
    unfold Simple.find_meme, route, Simple.find_meme_body. rewrite Hd.
    destruct d as [|c0 d0]; [congruence|].
    unfold bind at 1, call, JS.encodeURIComponent.
    destruct (JS.lone_surrogate (String c0 d0)); [reflexivity|].
    unfold ret at 1. cbv zeta.
    change (Simple.search_template key (JS.percent_encode (String c0 d0)))
      with (Simple.search_url key (String c0 d0)).
    unfold bind at 1, await_fetch. rewrite Hf. cbn [await app].
    unfold ret at 1. rewrite Hok. cbn [negb].
    unfold bind at 1. rewrite Hj. cbn [await]. unfold ret at 1.
    destruct Hz as [-> | ->]; reflexivity.
  - intros Wd key cx req_body w t completion w1 choice chs sr w2 sd
      Ht Hne Hc Hch Hf Hok Hj Hz.
    unfold Refined.find_meme, route, Refined.find_meme_body. rewrite Ht.
    destruct t as [|c0 t0]; [congruence|]. cbv zeta.
    unfold bind at 1, await_chat_create. rewrite Hc. cbn [await app].
    unfold ret at 1. rewrite Hch.
    unfold bind at 1, call, JS.encodeURIComponent.
    destruct (JS.lone_surrogate _); [reflexivity|].
    unfold ret at 1.
    match goal with
    | |- context [Refined.search_template key cx (JS.percent_encode ?q)] =>
        change (Refined.search_template key cx (JS.percent_encode q))
          with (Refined.search_url key cx q)
    end.
    unfold bind at 1, await_fetch. rewrite Hf. cbn [await app].
    unfold ret at 1. rewrite Hok. cbn [negb].
    unfold bind at 1. rewrite Hj. cbn [await]. unfold ret at 1.
    destruct Hz as [-> | ->]; reflexivity.
Qed.

(** An empty [data] list and an absent [items] list. *)
Lemma zero_results_is_a_404_witness :
  status (fst (Simple.find_meme Examples.simple_world "KEY"
                 Examples.simple_request Examples.simple_nothing)) = 404%Z /\
  status (fst (Refined.find_meme Examples.refined_world "KEY" "CX"
                 Examples.refined_request Examples.refined_nothing)) = 404%Z.
Proof.
  split.
  - rewrite (proj1 zero_results_is_a_404 Examples.simple_world "KEY"
               Examples.simple_request Examples.simple_nothing
               "cat typing" _ _ _ eq_refl ltac:(discriminate) eq_refl eq_refl
               eq_refl (or_intror eq_refl)).
    reflexivity.
  - rewrite (proj2 zero_results_is_a_404 Examples.refined_world "KEY" "CX"
               Examples.refined_request Examples.refined_nothing
               "when the deploy fails" _ _ _ _ _ _ _ eq_refl
               ltac:(discriminate) eq_refl eq_refl eq_refl eq_refl eq_refl
               (or_introl eq_refl)).
    reflexivity.
Defined.

(** ** The refined variant on the scripted run of five candidates *)

(** The first two candidates are rejected, the third is accepted, the
    fourth and fifth are never probed. *)
Lemma candidates_probed_in_order_witness :
  exists probes tail,
    snd (snd (Refined.find_meme Examples.refined_world "KEY" "CX"
                Examples.refined_request Examples.refined_third))
    = ([ChatCreate "gpt-4o" (Refined.chat_messages "when the deploy fails")
          (Resolved Examples.answer);
        Fetch (Refined.search_url "KEY" "CX" "deploy fail panic meme")
          no_init Examples.search_hit]
       ++ map head_event probes ++ tail)%list /\
    ((exists pre item r ct post r',
        Examples.five = (map fst pre ++ item :: post)%list /\
        probes = (pre ++ [(item, r)])%list /\
        Forall (fun p => accepted (snd p) = None) pre /\
        accepted r = Some ct /\
        tail = [Fetch (Refined.link item) Refined.image_init r'])
     \/ (map fst probes = Examples.five /\
         Forall (fun p => accepted (snd p) = None) probes /\
         tail = [])).
Proof.
  destruct (candidates_probed_in_order Examples.refined_world "KEY" "CX"
              Examples.refined_request Examples.refined_third
              "when the deploy fails" Examples.answer _ _ _ _ _ _
              Examples.five
              eq_refl ltac:(discriminate) eq_refl eq_refl eq_refl eq_refl
              eq_refl eq_refl)
    as (resp & w' & probes & tail & Hrun & Hcases).
  exists probes, tail. split.
  - rewrite Hrun. reflexivity.
  - destruct Hcases as [Hfound|(Hm & Hrej & Ht & _)];
      [left; exact Hfound | right; repeat split; assumption].
Defined.

(** Five candidates, none of which reports an image. *)
Lemma no_image_candidate_is_not_found_witness :
  status (fst (Refined.find_meme Examples.refined_world "KEY" "CX"
                 Examples.refined_request Examples.refined_none)) = 404%Z /\
  forall url r,
    ~ In (Fetch url Refined.image_init r)
        (snd (snd (Refined.find_meme Examples.refined_world "KEY" "CX"
                     Examples.refined_request Examples.refined_none))).
Proof.
  assert (Hnone : forall url r,
    In (Fetch url Refined.head_init r)
       (snd (snd (Refined.find_meme Examples.refined_world "KEY" "CX"
                    Examples.refined_request Examples.refined_none))) ->
    reports_image r = false).
  { intros url r Hin. vm_compute in Hin.
    repeat (destruct Hin as [Hin|Hin]; [inversion Hin; reflexivity|]).
    destruct Hin. }
  destruct (no_image_candidate_is_not_found Examples.refined_world "KEY" "CX"
              Examples.refined_request Examples.refined_none
              "when the deploy fails" Examples.answer _ _ _ _ _ _
              Examples.five _ _ _
              eq_refl ltac:(discriminate) eq_refl eq_refl eq_refl eq_refl
              eq_refl eq_refl eq_refl Hnone)
    as (Hs & Hget & _).
  split; assumption.
Defined.

(** The model's answer is trimmed of every kind of white space before it is
    searched for, and of nothing else; an answer of white space only gives
    way to the text of the request; an answer cut in the middle of an emoji
    ends the run before the search. *)
Lemma search_query_is_refined_witness :
  (exists r more,
     snd (snd (Refined.find_meme Examples.refined_world "KEY" "CX"
                 Examples.refined_request Examples.refined_padded))
     = ChatCreate "gpt-4o" (Refined.chat_messages "when the deploy fails")
         (Resolved Examples.padded_answer)
       :: Fetch
            ("https://www.googleapis.com/customsearch/v1?key=KEY&cx=CX"
             ++ "&q=%E2%80%8Bdeploy%20fail%20panic%20meme%C2%85"
             ++ "&searchType=image&num=5&safe=off")
            no_init r
       :: more) /\
  (exists r more,
     snd (snd (Refined.find_meme Examples.refined_world "KEY" "CX"
                 Examples.refined_request Examples.refined_blank))
     = ChatCreate "gpt-4o" (Refined.chat_messages "when the deploy fails")
         (Resolved Examples.blank_answer)
       :: Fetch
            ("https://www.googleapis.com/customsearch/v1?key=KEY&cx=CX"
             ++ "&q=when%20the%20deploy%20fails"
             ++ "&searchType=image&num=5&safe=off")
            no_init r
       :: more) /\
  Refined.find_meme Examples.refined_world "KEY" "CX"
    Examples.refined_request Examples.refined_cut
  = (mkHttp 500 (ErrorBody "URI malformed"),
     (([], [Examples.search_hit]),
      [ChatCreate "gpt-4o" (Refined.chat_messages "when the deploy fails")
         (Resolved Examples.cut_answer)])).
Proof.
  split; [|split].
  - destruct (search_query_is_refined Examples.refined_world "KEY" "CX"
                Examples.refined_request Examples.refined_padded
                "when the deploy fails" Examples.padded_answer _ _ _
                eq_refl ltac:(discriminate) eq_refl eq_refl)
      as (_ & _ & r & w2 & resp & w' & more & _ & Hrun).
    exists r, more. rewrite Hrun. reflexivity.
  - destruct (search_query_is_refined Examples.refined_world "KEY" "CX"
                Examples.refined_request Examples.refined_blank
                "when the deploy fails" Examples.blank_answer _ _ _
                eq_refl ltac:(discriminate) eq_refl eq_refl)
      as (_ & _ & r & w2 & resp & w' & more & _ & Hrun).
    exists r, more. rewrite Hrun. reflexivity.
  - exact (proj2 (proj2
      (search_query_is_refined Examples.refined_world "KEY" "CX"
         Examples.refined_request Examples.refined_cut
         "when the deploy fails" Examples.cut_answer _ _ _
         eq_refl ltac:(discriminate) eq_refl eq_refl))).
Defined.

(** The HEAD check said [image/png], the download says [image/jpeg]: the
    artifact says [image/jpeg]. *)
Lemma mime_type_is_that_of_the_download_witness :
  exists e a,
    body (fst (Refined.find_meme Examples.refined_world "KEY" "CX"
                 Examples.refined_request Examples.refined_third))
    = EnvelopeBody e /\
    Envelope.artifacts e = [a] /\ Artifact.mimeType a = "image/jpeg".
Proof.
  destruct (proj1 (mime_type_is_that_of_the_download Examples.refined_world
                     "KEY" "CX" Examples.refined_request
                     Examples.refined_third _ _ _ eq_refl) eq_refl)
    as (e & a & pre & url & ir & ct & He & Ha & Hlog & Hct & _ & Hm).
  apply app_inj_tail in Hlog. destruct Hlog as [_ Hev].
  inversion Hev; subst ir. cbn in Hct. injection Hct as Hct.
  exists e, a. split; [exact He|]. split; [exact Ha|].
  rewrite Hm. symmetry. exact Hct.
Defined.

(** * Further properties of the handlers *)

(** ** Walking every path of a handler

    [run_open] unfolds a run of a handler in [H] down to the calls on the
    world; [run_case] then takes the next decision of the handler (a reply
    of the world, a test, the candidate loop) and splits on it. *)

Ltac run_open H :=
  unfold Simple.find_meme, Refined.find_meme, route,
    Simple.find_meme_body, Refined.find_meme_body in H;
  unfold bind, try_catch, call, await_fetch, await_chat_create, Date_now
    in H;
  unfold JS.encodeURIComponent, await in H; unfold ret, throw, return_ in H;
  cbv beta zeta in H.

Ltac run_case H :=
  match type of H with
  | context [Refined.check_items ?Wd ?its ?v (?w, ?l)] =>
      let v' := fresh "v" in
      let w' := fresh "w" in
      let probes := fresh "probes" in
      let Hloop := fresh "Hloop" in
      let pre := fresh "pre" in
      let item := fresh "item" in
      let r := fresh "r" in
      let ct := fresh "ct" in
      let post := fresh "post" in
      let Hi := fresh "Hits" in
      let Hp := fresh "Hprobes" in
      let Hrej := fresh "Hrej" in
      let Ha := fresh "Hacc" in
      let Hv := fresh "Hv" in
      destruct (check_items_run Wd its v w l)
        as (v' & w' & probes & Hloop
            & [(pre & item & r & ct & post & Hi & Hp & Hrej & Ha & Hv)
              |(Hi & Hrej & Hv)]);
      rewrite Hloop in H; clear Hloop; subst v';
      cbn [Refined.found Refined.imageUrl Refined.imageTitle
           Refined.initial_locals negb] in H
  | context [negb ?b] => destruct b eqn:?; cbn [negb] in H
  | context [match ?x with _ => _ end] =>
      lazymatch x with
      | context [match _ with _ => _ end] => fail
      | _ => destruct x eqn:?
      end
  end; cbv beta iota zeta in H.

Ltac rewrite_known :=
  repeat match goal with
         | H : ?x = _ |- context [?x] => rewrite H
         end.

Lemma run_eta {A B C} (x : A * (B * C)) :
  x = (fst x, (fst (snd x), snd (snd x))).
Proof. now destruct x as [? [? ?]]. Qed.

Lemma probes_prefix
  (pre : list (Refined.Item * promise (Response Refined.SearchData)))
  item r post :
  (map fst pre ++ item :: post)%list
  = (map fst (pre ++ [(item, r)]) ++ post)%list.
Proof. rewrite map_app. cbn. now rewrite <- app_assoc. Qed.

(** ** What a response is, and which calls were made for it *)

(** X1. The simple variant answers with a full result or with an error,
    never with both or with a partial result: either status 200 and an
    envelope with [ok = true], [tokensUsed = 0] and exactly one artifact of
    type [image], or status 400, 404 or 500 and a body [{error}]. *)
Theorem simple_answers_an_artifact_or_an_error
  (Wd : World Simple.GiphyData) key req_body w :
  let resp := fst (Simple.find_meme Wd key req_body w) in
  (status resp = 200%Z /\
   exists a result,
     body resp = EnvelopeBody (Envelope.mk true 0 [a] result) /\
     Artifact.type a = "image")
  \/ ((status resp = 400%Z \/ status resp = 404%Z \/ status resp = 500%Z) /\
      exists error, body resp = ErrorBody error).
Proof.
  cbv zeta. remember (Simple.find_meme Wd key req_body w) as R eqn:HR.
  run_open HR. repeat run_case HR.
  all: subst R; cbn [fst settle status body res_status_json res_json].
  all: try (right; split; [auto|eexists; reflexivity]).
  all: left; split; [reflexivity|]; do 2 eexists; split; reflexivity.
Qed.

(** X2. The refined variant likewise: status 200 with an envelope of exactly
    one artifact of type [image], or status 400, 404 or 500 with a body
    [{error}], which reports no token usage. *)
Theorem refined_answers_an_artifact_or_an_error
  (Wd : World Refined.SearchData) key cx req_body w :
  let resp := fst (Refined.find_meme Wd key cx req_body w) in
  (status resp = 200%Z /\
   exists tokens a result,
     body resp = EnvelopeBody (Envelope.mk true tokens [a] result) /\
     Artifact.type a = "image")
  \/ ((status resp = 400%Z \/ status resp = 404%Z \/ status resp = 500%Z) /\
      exists error, body resp = ErrorBody error).
Proof.
  cbv zeta. remember (Refined.find_meme Wd key cx req_body w) as R eqn:HR.
  run_open HR. repeat run_case HR.
  all: subst R; cbn [fst settle status body res_status_json res_json].
  all: try (right; split; [auto|eexists; reflexivity]).
  all: left; split; [reflexivity|]; do 3 eexists; split; reflexivity.
Qed.

(** X3. The simple variant makes no call, or the search request alone, or
    the search request followed by one download; both are plain GETs
    without options, the download goes to the [images.original.url] of the
    first result, and no completion call is ever made. *)
Theorem simple_makes_at_most_two_plain_requests
  (Wd : World Simple.GiphyData) key req_body w :
  let log := snd (snd (Simple.find_meme Wd key req_body w)) in
  log = [] \/
  exists d r,
    Simple.description_of req_body = Some d /\
    (log = [Fetch (Simple.search_url key d) no_init r] \/
     exists sr gd gif gifs url r',
       r = Resolved sr /\ json sr = Resolved gd /\
       Simple.data gd = Some (gif :: gifs) /\
       Simple.original_url gif = Some url /\
       log = [Fetch (Simple.search_url key d) no_init r;
              Fetch url no_init r']).
Proof.
  cbv zeta. remember (Simple.find_meme Wd key req_body w) as R eqn:HR.
  run_open HR. repeat run_case HR.
  all: subst R; cbn [fst snd settle app].
  all: try (left; reflexivity).
  all: right; do 2 eexists; (split; [reflexivity|]).
  all: try (left; reflexivity).
  all: right; subst; do 6 eexists;
    repeat (split; [first [reflexivity|eassumption]|]); reflexivity.
Qed.

(** X4. The calls of the refined variant follow the pipeline. A run makes no
    call; or the completion call alone, for the request's model ([gpt-4o]
    when it names none) with the system prompt and the text as it came; or
    that call, the search for the refined query, HEAD checks of a prefix of
    the candidates the search returned, in their order, and at most one
    download, as the last call. *)
Theorem refined_calls_follow_the_pipeline
  (Wd : World Refined.SearchData) key cx req_body w :
  let log := snd (snd (Refined.find_meme Wd key cx req_body w)) in
  log = [] \/
  exists t rc,
    Refined.text req_body = Some t /\
    (log = [ChatCreate (Refined.model_of req_body)
              (Refined.chat_messages t) rc]
     \/
     exists completion choice rs probes tail,
       rc = Resolved completion /\
       nth_error (choices completion) 0 = Some choice /\
       log = (ChatCreate (Refined.model_of req_body)
                (Refined.chat_messages t) rc
              :: Fetch (Refined.search_url key cx
                          (Refined.refine_query (message_content choice) t))
                   no_init rs
              :: map head_event probes ++ tail)%list /\
       (tail = [] \/
        exists url r', tail = [Fetch url Refined.image_init r']) /\
       (probes = [] \/
        exists sr sd its rest,
          rs = Resolved sr /\ json sr = Resolved sd /\
          Refined.items sd = Some its /\
          its = (map fst probes ++ rest)%list)).
Proof.
  cbv zeta. remember (Refined.find_meme Wd key cx req_body w) as R eqn:HR.
  run_open HR. repeat run_case HR.
  all: subst R; cbn [fst snd settle app].
  all: try (left; reflexivity).
  all: right; do 2 eexists; (split; [reflexivity|]).
  all: try (left; reflexivity).
  all: right; do 3 eexists.
  all: match goal with
       | |- context [(map head_event ?pr ++ [?x])%list] => exists pr, [x]
       | |- context [map head_event ?pr] => exists pr, []
       | _ => exists [], []
       end.
  all: split; [reflexivity|].
  all: split;
    [match goal with H : choices _ = _ |- _ => rewrite H end; reflexivity|].
  all: split; [first [reflexivity | rewrite app_nil_r; reflexivity]|].
  all: split;
    [first [left; reflexivity | right; do 2 eexists; reflexivity]|].
  all: try (left; reflexivity).
  all: right; do 3 eexists; first [exists post | exists []].
  all: repeat (split; [first [reflexivity | eassumption]|]).
  all: first
    [ subst probes; rewrite Hits; apply probes_prefix
    | rewrite app_nil_r; symmetry; exact Hits ].
Qed.

(** X5. In both variants the status is 400 exactly when the description or
    text is missing or empty: a text of white space only is not refused. The
    refined variant makes no outbound call exactly then. The simple variant
    makes no outbound call exactly then, or when the description holds a
    lone surrogate: [encodeURIComponent] then throws before the search
    request, and the status is 500. *)
Theorem status_400_exactly_for_missing_text :
  (forall (Wd : World Simple.GiphyData) key req_body w,
     let R := Simple.find_meme Wd key req_body w in
     let missing :=
       Simple.description_of req_body = None \/
       Simple.description_of req_body = Some EmptyString in
     let malformed :=
       exists d,
         Simple.description_of req_body = Some d /\
         JS.lone_surrogate d = true in
     (status (fst R) = 400%Z <-> missing) /\
     (snd (snd R) = [] <-> missing \/ malformed) /\
     (malformed -> R = (mkHttp 500 (ErrorBody "URI malformed"), (w, [])))) /\
  (forall (Wd : World Refined.SearchData) key cx req_body w,
     let R := Refined.find_meme Wd key cx req_body w in
     let missing :=
       Refined.text req_body = None \/
       Refined.text req_body = Some EmptyString in
     (status (fst R) = 400%Z <-> missing) /\
     (snd (snd R) = [] <-> missing)).
Proof.
  split.
  - intros Wd key req_body w. cbv zeta.
    remember (Simple.find_meme Wd key req_body w) as R eqn:HR.
    run_open HR. repeat run_case HR.
    all: subst R; cbn [fst snd settle app status res_status_json res_json].
    all: repeat split.
    all: try (intros [H|H]; discriminate H); try discriminate; auto.
    all: try (intros _; right; eexists; split; [reflexivity|assumption]).
    all: try (intros (d & Hd & Hls); discriminate Hd).
    all: try (intros (d & Hd & Hls); injection Hd as <-;
              first [congruence | discriminate Hls]).
    all: intros [[H|H]|(d & Hd & Hls)]; try discriminate H;
      try discriminate Hd; injection Hd as <-; congruence.
  - intros Wd key cx req_body w. cbv zeta.
    remember (Refined.find_meme Wd key cx req_body w) as R eqn:HR.
    run_open HR. repeat run_case HR.
    all: subst R; cbn [fst snd settle app status res_status_json res_json].
    all: split; split; try (intros [H|H]; discriminate H); try discriminate.
    all: auto.
    all: intros H; apply app_eq_nil in H; destruct H as [_ H]; discriminate H.
Qed.

(** A description that ends in the middle of an emoji: status 500, and the
    search is not requested, although the world would have answered. *)
Lemma status_400_exactly_for_missing_text_witness :
  Simple.find_meme Examples.simple_world "KEY" Examples.cut_request
    Examples.simple_png
  = (mkHttp 500 (ErrorBody "URI malformed"), (Examples.simple_png, [])).
Proof.
  apply (proj1 status_400_exactly_for_missing_text).
  eexists. split; reflexivity.
Defined.

(** ** Upstream failures *)

(** X6. In the simple variant, when the search request is rejected, or its
    response is not [ok], or its body cannot be read as JSON, the response
    is a 500 whose error is the rejection's message, or
    [Giphy API failed: <statusText>], and no further call is made. *)
Theorem simple_failed_search_is_a_500
  (Wd : World Simple.GiphyData) key req_body w u r rest :
  snd (snd (Simple.find_meme Wd key req_body w)) = Fetch u no_init r :: rest ->
  match r with
  | Rejected message =>
      fst (Simple.find_meme Wd key req_body w) = res_status_json 500 message
      /\ rest = []
  | Resolved sr =>
      if ok sr then
        match json sr with
        | Rejected message =>
            fst (Simple.find_meme Wd key req_body w)
            = res_status_json 500 message /\ rest = []
        | Resolved _ => True
        end
      else
        fst (Simple.find_meme Wd key req_body w)
        = res_status_json 500 ("Giphy API failed: " ++ statusText sr)
        /\ rest = []
  end.
Proof.
  remember (Simple.find_meme Wd key req_body w) as R eqn:HR.
  run_open HR. repeat run_case HR.
  all: subst R; cbn [fst snd settle app]; intros H; inversion H; subst.
  all: rewrite_known; try exact I; split; reflexivity.
Qed.

(** The search answers 404 Not Found. *)
Lemma simple_failed_search_is_a_500_witness :
  fst (Simple.find_meme Examples.simple_world "KEY" Examples.simple_request
         Failures.simple_search_404)
  = mkHttp 500 (ErrorBody "Giphy API failed: Not Found").
Proof.
  pose proof (simple_failed_search_is_a_500 Examples.simple_world "KEY"
                Examples.simple_request Failures.simple_search_404
                _ _ _ eq_refl) as H.
  cbn in H. destruct H as [H _]. exact H.
Defined.

(** X7. In the refined variant, when the search request is rejected, or its
    response is not [ok], or its body cannot be read as JSON, the response
    is a 500 whose error is the rejection's message, or
    [Google Search API failed: <statusText>], and no candidate is probed. *)
Theorem refined_failed_search_is_a_500
  (Wd : World Refined.SearchData) key cx req_body w e u r rest :
  snd (snd (Refined.find_meme Wd key cx req_body w))
  = e :: Fetch u no_init r :: rest ->
  match r with
  | Rejected message =>
      fst (Refined.find_meme Wd key cx req_body w)
      = res_status_json 500 message /\ rest = []
  | Resolved sr =>
      if ok sr then
        match json sr with
        | Rejected message =>
            fst (Refined.find_meme Wd key cx req_body w)
            = res_status_json 500 message /\ rest = []
        | Resolved _ => True
        end
      else
        fst (Refined.find_meme Wd key cx req_body w)
        = res_status_json 500 ("Google Search API failed: " ++ statusText sr)
        /\ rest = []
  end.
Proof.
  remember (Refined.find_meme Wd key cx req_body w) as R eqn:HR.
  run_open HR. repeat run_case HR.
  all: subst R; cbn [fst snd settle app]; intros H; inversion H; subst.
  all: rewrite_known; try exact I; split; reflexivity.
Qed.

Lemma refined_failed_search_is_a_500_witness :
  fst (Refined.find_meme Examples.refined_world "KEY" "CX"
         Examples.refined_request Failures.refined_search_404)
  = mkHttp 500 (ErrorBody "Google Search API failed: Not Found").
Proof.
  pose proof (refined_failed_search_is_a_500 Examples.refined_world "KEY"
                "CX" Examples.refined_request Failures.refined_search_404
                _ _ _ _ eq_refl) as H.
  cbn in H. destruct H as [H _]. exact H.
Defined.

(** X8. In the refined variant, when the completion call is rejected the
    response is a 500 with the rejection's message, and when it resolves
    without any choice the response is a 500 as well; in both cases no
    search is made. *)
Theorem refined_failed_completion_is_a_500
  (Wd : World Refined.SearchData) key cx req_body w model messages rc rest :
  snd (snd (Refined.find_meme Wd key cx req_body w))
  = ChatCreate model messages rc :: rest ->
  match rc with
  | Rejected message =>
      fst (Refined.find_meme Wd key cx req_body w)
      = res_status_json 500 message /\ rest = []
  | Resolved completion =>
      choices completion = [] ->
      status (fst (Refined.find_meme Wd key cx req_body w)) = 500%Z
      /\ rest = []
  end.
Proof.
  remember (Refined.find_meme Wd key cx req_body w) as R eqn:HR.
  run_open HR. repeat run_case HR.
  all: subst R; cbn [fst snd settle app]; intros H; inversion H; subst.
  all: try (split; reflexivity).
  all: intros Hc; try congruence.
  all: split; reflexivity.
Qed.

Lemma refined_failed_completion_is_a_500_witness :
  fst (Refined.find_meme Examples.refined_world "KEY" "CX"
         Examples.refined_request Failures.refined_chat_401)
  = mkHttp 500 (ErrorBody "401 Incorrect API key provided")
  /\
  status (fst (Refined.find_meme Examples.refined_world "KEY" "CX"
                 Examples.refined_request Failures.refined_no_choices))
  = 500%Z.
Proof.
  split.
  - pose proof (refined_failed_completion_is_a_500 Examples.refined_world
                  "KEY" "CX" Examples.refined_request
                  Failures.refined_chat_401 _ _ _ _ eq_refl) as H.
    cbn in H. destruct H as [H _]. exact H.
  - pose proof (refined_failed_completion_is_a_500 Examples.refined_world
                  "KEY" "CX" Examples.refined_request
                  Failures.refined_no_choices _ _ _ _ eq_refl) as H.
    cbn in H. destruct (H eq_refl) as [Hs _]. exact Hs.
Defined.

(** X9. A 404 is answered only after a search that came back [ok], and
    never after a download was tried: in the simple variant the search is
    the only call of the run; in the refined variant the calls after it are
    HEAD checks only, none of which was accepted. *)
Theorem not_found_means_nothing_was_downloaded :
  (forall (Wd : World Simple.GiphyData) key req_body w,
     let R := Simple.find_meme Wd key req_body w in
     status (fst R) = 404%Z ->
     exists u sr,
       snd (snd R) = [Fetch u no_init (Resolved sr)] /\ ok sr = true) /\
  (forall (Wd : World Refined.SearchData) key cx req_body w,
     let R := Refined.find_meme Wd key cx req_body w in
     status (fst R) = 404%Z ->
     exists e u sr probes,
       snd (snd R)
       = (e :: Fetch u no_init (Resolved sr) :: map head_event probes)%list /\
       ok sr = true /\
       Forall (fun p => accepted (snd p) = None) probes).
Proof.
  split.
  - intros Wd key req_body w. cbv zeta.
    remember (Simple.find_meme Wd key req_body w) as R eqn:HR.
    run_open HR. repeat run_case HR.
    all: subst R; cbn [fst snd settle app status res_status_json res_json].
    all: intros H; try discriminate H.
    all: do 2 eexists; split; [reflexivity|assumption].
  - intros Wd key cx req_body w. cbv zeta.
    remember (Refined.find_meme Wd key cx req_body w) as R eqn:HR.
    run_open HR. repeat run_case HR.
    all: subst R; cbn [fst snd settle app status res_status_json res_json].
    all: intros H; try discriminate H.
    all: do 3 eexists.
    all: first
      [ exists probes; split; [reflexivity|]; split; assumption
      | exists []; split; [reflexivity|]; split; [assumption|constructor] ].
Qed.

Lemma not_found_means_nothing_was_downloaded_witness :
  exists e u sr probes,
    snd (snd (Refined.find_meme Examples.refined_world "KEY" "CX"
                Examples.refined_request Examples.refined_none))
    = (e :: Fetch u no_init (Resolved sr) :: map head_event probes)%list /\
    ok sr = true /\
    Forall (fun p => accepted (snd p) = None) probes.
Proof.
  exact (proj2 not_found_means_nothing_was_downloaded Examples.refined_world
           "KEY" "CX" Examples.refined_request Examples.refined_none
           eq_refl).
Defined.

(** X10. In the simple variant only the first result is looked at: when it
    has no [images.original.url] (no [images], no [original], no [url], or
    an empty one) the response is 404 with
    [No valid image URL in Giphy response.], whatever further results the
    search returned, and nothing is downloaded. The search is only made for
    a description that [encodeURIComponent] accepts: with a lone surrogate in
    it the run ends with status 500 and no call. *)
Theorem first_result_without_url_is_a_404
  (Wd : World Simple.GiphyData) key req_body w d sr w1 gd gif gifs :
  Simple.description_of req_body = Some d -> d <> EmptyString ->
  fetch Wd w (Simple.search_url key d) no_init = (Resolved sr, w1) ->
  ok sr = true -> json sr = Resolved gd ->
  Simple.data gd = Some (gif :: gifs) ->
  (Simple.original_url gif = None \/
   Simple.original_url gif = Some EmptyString) ->
  Simple.find_meme Wd key req_body w
  = if JS.lone_surrogate d then
      (mkHttp 500 (ErrorBody "URI malformed"), (w, []))
    else
      (mkHttp 404 (ErrorBody "No valid image URL in Giphy response."),
       (w1, [Fetch (Simple.search_url key d) no_init (Resolved sr)])).
Proof.
  intros Hd Hne Hf Hok Hj Hdata Hurl.
  remember (Simple.find_meme Wd key req_body w) as R eqn:HR.
  run_open HR. rewrite Hd in HR. destruct d as [|c0 d0]; [congruence|].
  destruct (JS.lone_surrogate (String c0 d0)); [exact HR|].
  cbv beta iota zeta in HR.
  change (Simple.search_template key (JS.percent_encode (String c0 d0)))
    with (Simple.search_url key (String c0 d0)) in HR.
  rewrite Hf in HR. cbv beta iota zeta in HR.
  rewrite Hok in HR. cbn [negb] in HR. rewrite Hj in HR.
  cbv beta iota zeta in HR. rewrite Hdata in HR.
  destruct Hurl as [Hurl|Hurl]; rewrite Hurl in HR; exact HR.
Qed.

(** The second result has an image; it is not used. *)
Lemma first_result_without_url_is_a_404_witness :
  fst (Simple.find_meme Examples.simple_world "KEY" Examples.simple_request
         Failures.simple_without_url)
  = mkHttp 404 (ErrorBody "No valid image URL in Giphy response.").
Proof.
  rewrite (first_result_without_url_is_a_404 Examples.simple_world "KEY"
             Examples.simple_request Failures.simple_without_url
             "cat typing" _ _ _ _ _ eq_refl ltac:(discriminate) eq_refl
             eq_refl eq_refl eq_refl (or_introl eq_refl)).
  reflexivity.
Defined.

(** ** The download *)

(** X11. In the simple variant the reply to the download decides the
    response. A rejection, or a body that cannot be read, gives a 500 with
    that message; a response that is not [ok] gives a 500 with
    [Failed to download image: <statusText>]; every [ok] response with a
    readable body gives a 200 whose artifact holds that body and the content
    type as it was declared, also when that is not an image type. *)
Theorem simple_download_decides_the_response
  (Wd : World Simple.GiphyData) key req_body w e url r :
  snd (snd (Simple.find_meme Wd key req_body w)) = [e; Fetch url no_init r] ->
  let resp := fst (Simple.find_meme Wd key req_body w) in
  match r with
  | Rejected message => resp = res_status_json 500 message
  | Resolved ir =>
      if ok ir then
        match arrayBuffer ir with
        | Rejected message => resp = res_status_json 500 message
        | Resolved bytes =>
            status resp = 200%Z /\
            exists a result,
              body resp = EnvelopeBody (Envelope.mk true 0 [a] result) /\
              Artifact.base64 a = Base64.encode bytes /\
              Artifact.mimeType a
              = JS.or_default (content_type ir) "image/gif"
        end
      else
        resp = res_status_json 500
                 ("Failed to download image: " ++ statusText ir)
  end.
Proof.
  cbv zeta.
  remember (Simple.find_meme Wd key req_body w) as R eqn:HR.
  run_open HR. repeat run_case HR.
  all: subst R; cbn [fst snd settle app]; intros H; inversion H; subst.
  all: rewrite_known; try reflexivity.
  split; [reflexivity|]. do 2 eexists. repeat split.
Qed.

(** An HTML page is passed on as the artifact. *)
Lemma simple_download_decides_the_response_witness :
  exists a result,
    body (fst (Simple.find_meme Examples.simple_world "KEY"
                 Examples.simple_request Failures.simple_html))
    = EnvelopeBody (Envelope.mk true 0 [a] result) /\
    Artifact.mimeType a = "text/html".
Proof.
  pose proof (simple_download_decides_the_response Examples.simple_world
                "KEY" Examples.simple_request Failures.simple_html
                _ _ _ eq_refl) as H.
  cbn in H. destruct H as (_ & a & result & Hb & _ & Hm).
  exists a, result. split; [exact Hb|exact Hm].
Defined.

(** X12. In the refined variant the reply to the download decides the
    response. A rejection, or a body that cannot be read, gives a 500 with
    that message; a response that is not [ok] gives a 500 with
    [Failed to download image: <statusText>]; an [ok] response whose content
    type ([application/octet-stream] when it declares none) does not begin
    with [image/] gives a 500 with [URL returned non-image content: <type>],
    although the HEAD check of the same URL had been accepted; otherwise the
    status is 200. *)
Theorem refined_download_decides_the_response
  (Wd : World Refined.SearchData) key cx req_body w url r :
  In (Fetch url Refined.image_init r)
     (snd (snd (Refined.find_meme Wd key cx req_body w))) ->
  let resp := fst (Refined.find_meme Wd key cx req_body w) in
  match r with
  | Rejected message => resp = res_status_json 500 message
  | Resolved ir =>
      if ok ir then
        let mimeType :=
          JS.or_default (content_type ir) "application/octet-stream" in
        if JS.startsWith mimeType "image/" then
          match arrayBuffer ir with
          | Rejected message => resp = res_status_json 500 message
          | Resolved bytes => status resp = 200%Z
          end
        else
          resp = res_status_json 500
                   ("URL returned non-image content: " ++ mimeType)
      else
        resp = res_status_json 500
                 ("Failed to download image: " ++ statusText ir)
  end.
Proof.
  cbv zeta.
  remember (Refined.find_meme Wd key cx req_body w) as R eqn:HR.
  run_open HR. repeat run_case HR.
  all: subst R; cbn [fst snd settle]; intros H.
  all: repeat (apply in_app_or in H; destruct H as [H|H]).
  all: try (destruct H as [H|[]]; try discriminate H).
  all: try (apply in_map_iff in H; destruct H as (p' & Hp' & _);
            discriminate Hp').
  all: try contradiction.
  all: inversion H; subst; rewrite_known; reflexivity.
Qed.

(** The HEAD check said [image/png], the download is an HTML page. *)
Lemma refined_download_decides_the_response_witness :
  fst (Refined.find_meme Examples.refined_world "KEY" "CX"
         Examples.refined_request Failures.refined_html)
  = mkHttp 500 (ErrorBody "URL returned non-image content: text/html").
Proof.
  assert (Hin :
    In (Fetch "https://a.example/1" Refined.image_init
          (Script.binary_response true (Some "text/html")
             [x3c; x68; x31; x3e]))
       (snd (snd (Refined.find_meme Examples.refined_world "KEY" "CX"
                    Examples.refined_request Failures.refined_html)))).
  { vm_compute. right. right. right. left. reflexivity. }
  pose proof (refined_download_decides_the_response Examples.refined_world
                "KEY" "CX" Examples.refined_request Failures.refined_html
                _ _ Hin) as H.
  cbn in H. exact H.
Defined.

(** ** What a successful response describes *)

(** X13. A 200 of the refined variant describes the first candidate of the
    search result whose HEAD check was accepted: every candidate before it
    was probed and rejected, it is the one that was downloaded, and [result]
    is the JSON text of its link, its title and the refined query. *)
Theorem refined_success_describes_first_accepted
  (Wd : World Refined.SearchData) key cx req_body w :
  let R := Refined.find_meme Wd key cx req_body w in
  status (fst R) = 200%Z ->
  exists t completion choice sr sd pre item r ct post ir e,
    Refined.text req_body = Some t /\
    nth_error (choices completion) 0 = Some choice /\
    snd (snd R)
    = (ChatCreate (Refined.model_of req_body) (Refined.chat_messages t)
         (Resolved completion)
       :: Fetch (Refined.search_url key cx
                   (Refined.refine_query (message_content choice) t))
            no_init (Resolved sr)
       :: map head_event (pre ++ [(item, r)])
          ++ [Fetch (Refined.link item) Refined.image_init
                (Resolved ir)])%list /\
    json sr = Resolved sd /\
    Refined.items sd = Some (map fst pre ++ item :: post)%list /\
    Forall (fun p => accepted (snd p) = None) pre /\
    accepted r = Some ct /\
    body (fst R) = EnvelopeBody e /\
    Envelope.result e
    = stringify_responseData (Refined.link item) (Refined.title item)
        (Refined.refine_query (message_content choice) t).
Proof.
  cbv zeta.
  remember (Refined.find_meme Wd key cx req_body w) as R eqn:HR.
  run_open HR. repeat run_case HR.
  all: subst R; cbn [fst snd settle app status res_status_json res_json body];
    intros H; try discriminate H.
  do 5 eexists. exists pre, item, r, ct, post. do 2 eexists.
  split; [reflexivity|].
  split; [match goal with H : choices _ = _ |- _ => rewrite H end;
          reflexivity|].
  subst probes.
  split; [reflexivity|]. split; [eassumption|].
  split; [rewrite <- Hits; assumption|].
  repeat (split; [first [assumption|reflexivity]|]). reflexivity.
Qed.

(** The third of five candidates. *)
Lemma refined_success_describes_first_accepted_witness :
  exists e,
    body (fst (Refined.find_meme Examples.refined_world "KEY" "CX"
                 Examples.refined_request Examples.refined_third))
    = EnvelopeBody e /\
    Envelope.result e
    = stringify_responseData "https://a.example/3.png" "three"
        "deploy fail panic meme".
Proof.
  destruct (refined_success_describes_first_accepted Examples.refined_world
              "KEY" "CX" Examples.refined_request Examples.refined_third
              eq_refl)
    as (t & completion & choice & sr & sd & pre & item & r & ct & post & ir
        & e & _ & _ & _ & _ & _ & _ & _ & He & _).
  exists e. split; [exact He|].
  vm_compute in He. inversion He. reflexivity.
Defined.

(** X14. A 200 of the simple variant describes the first result of the
    search: its [images.original.url] is what was downloaded, and [result]
    is the JSON text of that URL, the result's title and the description as
    it came. *)
Theorem simple_success_describes_first_result
  (Wd : World Simple.GiphyData) key req_body w :
  let R := Simple.find_meme Wd key req_body w in
  status (fst R) = 200%Z ->
  exists d sr gd gif gifs url ir e,
    Simple.description_of req_body = Some d /\
    snd (snd R) = [Fetch (Simple.search_url key d) no_init (Resolved sr);
                   Fetch url no_init (Resolved ir)] /\
    json sr = Resolved gd /\
    Simple.data gd = Some (gif :: gifs) /\
    Simple.original_url gif = Some url /\
    body (fst R) = EnvelopeBody e /\
    Envelope.result e = stringify_responseData url (Simple.title gif) d.
Proof.
  cbv zeta.
  remember (Simple.find_meme Wd key req_body w) as R eqn:HR.
  run_open HR. repeat run_case HR.
  all: subst R; cbn [fst snd settle app status res_status_json res_json body];
    intros H; try discriminate H.
  do 8 eexists.
  repeat (split; [first [eassumption|reflexivity]|]). reflexivity.
Qed.

Lemma simple_success_describes_first_result_witness :
  exists e,
    body (fst (Simple.find_meme Examples.simple_world "KEY"
                 Examples.simple_request Examples.simple_png))
    = EnvelopeBody e /\
    Envelope.result e
    = stringify_responseData Examples.gif_url "Cat Typing" "cat typing".
Proof.
  destruct (simple_success_describes_first_result Examples.simple_world
              "KEY" Examples.simple_request Examples.simple_png eq_refl)
    as (d & sr & gd & gif & gifs & url & ir & e & _ & _ & _ & _ & _ & He & _).
  exists e. split; [exact He|].
  vm_compute in He. inversion He. reflexivity.
Defined.

(** ** The search URL *)

Lemma refine_query_nonempty content t :
  t <> EmptyString -> Refined.refine_query content t <> EmptyString.
Proof.
  intros Ht. unfold Refined.refine_query.
  destruct content as [s|]; cbn; [|exact Ht].
  destruct (JS.trim s); [exact Ht|discriminate].
Qed.

(** X15. The search query is never empty where it is used: the first fetch
    of the simple variant, and the second call of the refined variant when
    it is a fetch, go to the search URL of a non-empty query (the
    description, or the refined query). *)
Theorem search_query_is_never_empty :
  (forall (Wd : World Simple.GiphyData) key req_body w u init r rest,
     snd (snd (Simple.find_meme Wd key req_body w))
     = Fetch u init r :: rest ->
     exists d,
       Simple.description_of req_body = Some d /\ d <> EmptyString /\
       u = Simple.search_url key d) /\
  (forall (Wd : World Refined.SearchData) key cx req_body w e u init r rest,
     snd (snd (Refined.find_meme Wd key cx req_body w))
     = e :: Fetch u init r :: rest ->
     exists q, q <> EmptyString /\ u = Refined.search_url key cx q).
Proof.
  split.
  - intros Wd key req_body w u init r rest.
    remember (Simple.find_meme Wd key req_body w) as R eqn:HR.
    run_open HR. repeat run_case HR.
    all: subst R; cbn [fst snd settle app]; intros H; inversion H; subst.
    all: eexists; split; [reflexivity|]; split; [discriminate|reflexivity].
  - intros Wd key cx req_body w e u init r rest.
    remember (Refined.find_meme Wd key cx req_body w) as R eqn:HR.
    run_open HR. repeat run_case HR.
    all: subst R; cbn [fst snd settle app]; intros H; inversion H; subst.
    all: eexists; split; [|reflexivity].
    all: apply refine_query_nonempty; discriminate.
Qed.

Lemma search_query_is_never_empty_witness :
  exists q,
    q <> EmptyString /\
    Refined.search_url "KEY" "CX" "deploy fail panic meme"
    = Refined.search_url "KEY" "CX" q.
Proof.
  exact (proj2 search_query_is_never_empty Examples.refined_world "KEY" "CX"
           Examples.refined_request Examples.refined_third _ _ _ _ _
           eq_refl).
Defined.

Lemma chars_append s1 s2 :
  list_ascii_of_string (s1 ++ s2)
  = (list_ascii_of_string s1 ++ list_ascii_of_string s2)%list.
Proof. induction s1 as [|c s1 IH]; cbn; [reflexivity|now rewrite IH]. Qed.

Lemma chars_inj s1 s2 :
  list_ascii_of_string s1 = list_ascii_of_string s2 -> s1 = s2.
Proof.
  intros H. rewrite <- (string_of_list_ascii_of_string s1),
    <- (string_of_list_ascii_of_string s2). now rewrite H.
Qed.

Lemma append_inv_head s a b : s ++ a = s ++ b -> a = b.
Proof.
  induction s as [|c s IH]; cbn; intros H; [exact H|]. inversion H. auto.
Qed.

Lemma append_inv_tail s a b : a ++ s = b ++ s -> a = b.
Proof.
  intros H. apply chars_inj. apply (f_equal list_ascii_of_string) in H.
  rewrite !chars_append in H. now apply app_inv_tail in H.
Qed.

Lemma hex_digit_unreserved k :
  (k < 16)%N -> JS.uri_unreserved (JS.hex_digit k) = true.
Proof.
  intros H. destruct k as [|p]; [reflexivity|].
  do 4 (try destruct p as [p|p|]); try reflexivity; exfalso; lia.
Qed.

Lemma encoded_chars s c :
  In c (list_ascii_of_string (JS.percent_encode s)) ->
  JS.uri_unreserved c = true \/ c = "%"%char.
Proof.
  induction s as [|a s IH]; cbn; [contradiction|].
  destruct (JS.uri_unreserved a) eqn:Ha; cbn.
  - intros [<-|H]; auto.
  - destruct (nibbles a) as [Hh Hl].
    intros [<-|[<-|[<-|H]]]; auto using hex_digit_unreserved.
Qed.

(** X16. The query cannot reach into the search URL: the encoded query that
    both handlers splice into it, whenever [encodeURIComponent] returns one,
    holds none of [& = # ? / +] and no space, so it neither ends the [q]
    parameter nor adds another. *)
Theorem encoded_query_is_url_safe s encoded c :
  JS.encodeURIComponent s = JS.Returns encoded ->
  In c (list_ascii_of_string encoded) ->
  ~ In c ["&"; "="; "#"; "?"; "/"; "+"; " "]%char.
Proof.
  intros He H Hc. unfold JS.encodeURIComponent in He.
  destruct (JS.lone_surrogate s); [discriminate He|].
  injection He as <-. apply encoded_chars in H.
  cbn in Hc.
  repeat (destruct Hc as [<-|Hc]; [destruct H as [H|H]; discriminate H|]).
  exact Hc.
Qed.

Lemma encoded_query_is_url_safe_witness :
  ~ In "%"%char ["&"; "="; "#"; "?"; "/"; "+"; " "]%char.
Proof.
  apply (encoded_query_is_url_safe "a&b=c d" "a%26b%3Dc%20d" "%"%char).
  - reflexivity.
  - vm_compute. right. left. reflexivity.
Defined.

(** X17. The search URL determines the query: under the same keys, two
    different descriptions, or two different refined queries, are never
    searched for with the same URL. *)
Theorem search_url_determines_the_query :
  (forall key d1 d2,
     Simple.search_url key d1 = Simple.search_url key d2 -> d1 = d2) /\
  (forall key cx q1 q2,
     Refined.search_url key cx q1 = Refined.search_url key cx q2 -> q1 = q2).
Proof.
  split.
  - intros key d1 d2 E. unfold Simple.search_url, Simple.search_template in E.
    do 3 apply append_inv_head in E. apply append_inv_tail in E.
    now apply percent_encode_inj.
  - intros key cx q1 q2 E.
    unfold Refined.search_url, Refined.search_template in E.
    do 5 apply append_inv_head in E. apply append_inv_tail in E.
    now apply percent_encode_inj.
Qed.

(** ** The artifact: its name and its payload *)

Lemma uint_chars_no_dot d c :
  In c (list_ascii_of_string (NilEmpty.string_of_uint d)) -> c <> "."%char.
Proof.
  induction d; cbn; intros H; try contradiction;
    destruct H as [H|H]; try (subst c; discriminate); auto.
Qed.

Lemma nilzero_chars_no_dot d c :
  In c (list_ascii_of_string (NilZero.string_of_uint d)) -> c <> "."%char.
Proof.
  destruct d;
    [cbn; intros [H|[]]; subst c; discriminate
    |exact (uint_chars_no_dot _ c)..].
Qed.

(** The decimal form of a timestamp holds no dot. *)
Lemma number_chars_no_dot z c :
  In c (list_ascii_of_string (JS.number_to_string z)) -> c <> "."%char.
Proof.
  unfold JS.number_to_string, NilZero.string_of_int.
  destruct (Z.to_int z) as [d|d].
  - apply nilzero_chars_no_dot.
  - cbn [list_ascii_of_string]. intros [H|H]; [subst c; discriminate|].
    revert H. apply nilzero_chars_no_dot.
Qed.

Lemma to_int_nonnil z :
  Z.to_int z <> Decimal.Pos Decimal.Nil /\
  Z.to_int z <> Decimal.Neg Decimal.Nil.
Proof.
  destruct z as [|p|p]; cbn; split; try discriminate;
    intros H; inversion H as [E];
    exact (DecimalPos.Unsigned.to_uint_nonnil p E).
Qed.

(** Different timestamps have different decimal forms. *)
Lemma number_to_string_inj z1 z2 :
  JS.number_to_string z1 = JS.number_to_string z2 -> z1 = z2.
Proof.
  unfold JS.number_to_string. intros H.
  apply (f_equal NilZero.int_of_string) in H.
  destruct (to_int_nonnil z1) as [H1 H1'].
  destruct (to_int_nonnil z2) as [H2 H2'].
  rewrite !NilZero.isi in H by assumption.
  inversion H as [E]. now apply DecimalZ.to_int_inj.
Qed.

Lemma split_at_first_dot s1 s2 e1 e2 :
  (forall c, In c (list_ascii_of_string s1) -> c <> "."%char) ->
  (forall c, In c (list_ascii_of_string s2) -> c <> "."%char) ->
  s1 ++ String "." e1 = s2 ++ String "." e2 -> s1 = s2 /\ e1 = e2.
Proof.
  revert s2. induction s1 as [|c s1 IH]; intros [|c2 s2] H1 H2 E; cbn in E.
  - inversion E. auto.
  - inversion E; subst c2. exfalso.
    apply (H2 "."%char); [now left|reflexivity].
  - inversion E; subst c. exfalso.
    apply (H1 "."%char); [now left|reflexivity].
  - inversion E; subst c2.
    destruct (IH s2) as [-> ->]; auto.
    + intros c' Hc. apply H1. now right.
    + intros c' Hc. apply H2. now right.
Qed.

(** X18. The artifact name of the simple variant distinguishes responses by
    [Date.now()] alone: two successful responses, of any two requests, carry
    the same artifact name exactly when their timestamps are the same
    millisecond. *)
Theorem simple_names_differ_by_the_millisecond
  (Wd1 Wd2 : World Simple.GiphyData) key1 key2 req1 req2 w1 w2 :
  let R1 := Simple.find_meme Wd1 key1 req1 w1 in
  let R2 := Simple.find_meme Wd2 key2 req2 w2 in
  status (fst R1) = 200%Z -> status (fst R2) = 200%Z ->
  exists e1 a1 e2 a2,
    body (fst R1) = EnvelopeBody e1 /\ Envelope.artifacts e1 = [a1] /\
    body (fst R2) = EnvelopeBody e2 /\ Envelope.artifacts e2 = [a2] /\
    (Artifact.name a1 = Artifact.name a2 <->
     now Wd1 (fst (snd R1)) = now Wd2 (fst (snd R2))).
Proof.
  intros R1 R2 H1 H2.
  destruct (simple_success Wd1 key1 req1 w1 (fst R1) (fst (snd R1))
              (snd (snd R1)))
    as (d1 & sr1 & w1' & gd1 & g1 & gs1 & u1 & ir1 & b1 & _ & _ & _ & _
        & _ & _ & _ & _ & _ & _ & _ & _ & E1);
    [apply run_eta|exact H1|].
  destruct (simple_success Wd2 key2 req2 w2 (fst R2) (fst (snd R2))
              (snd (snd R2)))
    as (d2 & sr2 & w2' & gd2 & g2 & gs2 & u2 & ir2 & b2 & _ & _ & _ & _
        & _ & _ & _ & _ & _ & _ & _ & _ & E2);
    [apply run_eta|exact H2|].
  rewrite E1, E2. do 4 eexists. repeat (split; [reflexivity|]).
  cbn [Artifact.name]. split.
  - intros E. apply append_inv_head in E. apply append_inv_tail in E.
    now apply number_to_string_inj.
  - intros ->. reflexivity.
Qed.

(** Two requests answered in the same millisecond share the name. *)
Lemma simple_names_differ_by_the_millisecond_witness :
  exists e1 a1 e2 a2,
    body (fst (Simple.find_meme Examples.simple_world "KEY"
                 Examples.simple_request Examples.simple_png))
    = EnvelopeBody e1 /\ Envelope.artifacts e1 = [a1] /\
    body (fst (Simple.find_meme Examples.simple_world "KEY"
                 Examples.simple_request Examples.simple_empty))
    = EnvelopeBody e2 /\ Envelope.artifacts e2 = [a2] /\
    Artifact.name a1 = Artifact.name a2.
Proof.
  destruct (simple_names_differ_by_the_millisecond
              Examples.simple_world Examples.simple_world "KEY" "KEY"
              Examples.simple_request Examples.simple_request
              Examples.simple_png Examples.simple_empty eq_refl eq_refl)
    as (e1 & a1 & e2 & a2 & He1 & Ha1 & He2 & Ha2 & Hn).
  exists e1, a1, e2, a2. repeat (split; [assumption|]).
  apply Hn. reflexivity.
Defined.

(** X19. In the refined variant two successful responses carry the same
    artifact name exactly when their timestamps are the same millisecond and
    their MIME types give the same extension. *)
Theorem refined_names_differ_by_millisecond_and_extension
  (Wd1 Wd2 : World Refined.SearchData) key1 cx1 key2 cx2 req1 req2 w1 w2 :
  let R1 := Refined.find_meme Wd1 key1 cx1 req1 w1 in
  let R2 := Refined.find_meme Wd2 key2 cx2 req2 w2 in
  status (fst R1) = 200%Z -> status (fst R2) = 200%Z ->
  exists e1 a1 e2 a2,
    body (fst R1) = EnvelopeBody e1 /\ Envelope.artifacts e1 = [a1] /\
    body (fst R2) = EnvelopeBody e2 /\ Envelope.artifacts e2 = [a2] /\
    (Artifact.name a1 = Artifact.name a2 <->
     now Wd1 (fst (snd R1)) = now Wd2 (fst (snd R2)) /\
     Refined.extension (Artifact.mimeType a1)
     = Refined.extension (Artifact.mimeType a2)).
Proof.
  intros R1 R2 H1 H2.
  destruct (refined_success Wd1 key1 cx1 req1 w1 (fst R1) (fst (snd R1))
              (snd (snd R1)))
    as (t1 & c1 & ch1 & w1a & sr1 & w1b & sd1 & its1 & v1 & w1c & pr1 & ir1
        & ct1 & b1 & _ & _ & _ & _ & E1);
    [apply run_eta|exact H1|].
  destruct (refined_success Wd2 key2 cx2 req2 w2 (fst R2) (fst (snd R2))
              (snd (snd R2)))
    as (t2 & c2 & ch2 & w2a & sr2 & w2b & sd2 & its2 & v2 & w2c & pr2 & ir2
        & ct2 & b2 & _ & _ & _ & _ & E2);
    [apply run_eta|exact H2|].
  cbv zeta in E1, E2.
  destruct E1 as (_ & _ & _ & _ & _ & _ & _ & _ & _ & _ & _ & _ & E1).
  destruct E2 as (_ & _ & _ & _ & _ & _ & _ & _ & _ & _ & _ & _ & E2).
  rewrite E1, E2. do 4 eexists. repeat (split; [reflexivity|]).
  cbn [Artifact.name Artifact.mimeType]. split.
  - intros E. apply append_inv_head in E.
    apply split_at_first_dot in E; try apply number_chars_no_dot.
    destruct E as [E ->]. split; [now apply number_to_string_inj|reflexivity].
  - intros [-> ->]. reflexivity.
Qed.

(** Same millisecond, [jpeg] against [png]: the names differ. *)
Lemma refined_names_differ_by_millisecond_and_extension_witness :
  exists e1 a1 e2 a2,
    body (fst (Refined.find_meme Examples.refined_world "KEY" "CX"
                 Examples.refined_request Examples.refined_third))
    = EnvelopeBody e1 /\ Envelope.artifacts e1 = [a1] /\
    body (fst (Refined.find_meme Examples.refined_world "KEY" "CX"
                 Examples.refined_request Examples.refined_empty))
    = EnvelopeBody e2 /\ Envelope.artifacts e2 = [a2] /\
    Artifact.name a1 <> Artifact.name a2.
Proof.
  destruct (refined_names_differ_by_millisecond_and_extension
              Examples.refined_world Examples.refined_world
              "KEY" "CX" "KEY" "CX"
              Examples.refined_request Examples.refined_request
              Examples.refined_third Examples.refined_empty eq_refl eq_refl)
    as (e1 & a1 & e2 & a2 & He1 & Ha1 & He2 & Ha2 & Hn).
  exists e1, a1, e2, a2. repeat (split; [assumption|]).
  intros E. apply Hn in E. destruct E as [_ E].
  vm_compute in He1, He2. inversion He1; subst e1. inversion He2; subst e2.
  cbn in Ha1, Ha2. inversion Ha1; subst a1. inversion Ha2; subst a2.
  vm_compute in E. discriminate E.
Defined.

Lemma digit_in_alphabet n :
  (n < 64)%N ->
  In (Base64.digit n) (list_ascii_of_string Base64.alphabet).
Proof.
  intros H. destruct n as [|p]; [cbn; auto|].
  do 6 (try destruct p as [p|p|]); try (exfalso; lia); cbn; auto 70.
Qed.

(** X20. The [base64] field made of a body of [n] bytes has
    [4 * ceil (n / 3)] characters, each a digit of the base64 alphabet or the
    padding sign. *)
Theorem base64_field_shape bs :
  String.length (Base64.encode bs) = 4 * ((List.length bs + 2) / 3) /\
  forall c,
    In c (list_ascii_of_string (Base64.encode bs)) ->
    In c (list_ascii_of_string Base64.alphabet) \/ c = Base64.pad.
Proof.
  induction bs as [|a|a b|a b c l [IHl IHc]] using Base64Facts.list_ind3.
  - split; [reflexivity|]. cbn. contradiction.
  - pose proof (Base64Facts.to_N_lt a) as Ha.
    destruct (Base64Facts.arith1 _ Ha) as (H1 & H2 & _). cbv zeta in *.
    split; [reflexivity|]. cbn [Base64.encode list_ascii_of_string].
    intros x [<-|[<-|[<-|[<-|[]]]]]; auto using digit_in_alphabet.
  - pose proof (Base64Facts.to_N_lt a) as Ha.
    pose proof (Base64Facts.to_N_lt b) as Hb.
    destruct (Base64Facts.arith2 _ _ Ha Hb) as (H1 & H2 & H3 & _).
    cbv zeta in *.
    split; [reflexivity|]. cbn [Base64.encode list_ascii_of_string].
    intros x [<-|[<-|[<-|[<-|[]]]]]; auto using digit_in_alphabet.
  - pose proof (Base64Facts.to_N_lt a) as Ha.
    pose proof (Base64Facts.to_N_lt b) as Hb.
    pose proof (Base64Facts.to_N_lt c) as Hc.
    destruct (Base64Facts.arith3 _ _ _ Ha Hb Hc) as (H1 & H2 & H3 & H4 & _).
    cbv zeta in *. split.
    + cbn [Base64.encode String.length List.length]. rewrite IHl.
      replace (S (S (S (List.length l))) + 2)
        with (1 * 3 + (List.length l + 2)) by lia.
      rewrite Nat.div_add_l by lia. lia.
    + cbn [Base64.encode list_ascii_of_string].
      intros x [<-|[<-|[<-|[<-|H]]]]; auto using digit_in_alphabet.
Qed.

(** ** The candidate loop *)

Lemma accepted_starts_with_image {D} (r : promise (Response D)) ct :
  accepted r = Some ct -> JS.startsWith ct "image/" = true.
Proof.
  destruct r as [resp|m]; cbn; [|discriminate].
  destruct (ok resp); [|discriminate].
  destruct (JS.startsWith _ _) eqn:E; [|discriminate].
  intros H. inversion H; subst. exact E.
Qed.

(** X21. No failure of a HEAD check leaves the candidate loop: whatever the
    world replies, the loop completes normally. It leaves the variables as
    they were, or it has set [found], and then [imageUrl] and [imageTitle]
    are the link and title of one candidate of the list and [mimeType]
    begins with [image/]. *)
Theorem candidate_loop_never_throws
  (Wd : World Refined.SearchData) items v w log :
  exists v' w' log',
    Refined.check_items Wd items v (w, log) = (Normal v', (w', log')) /\
    (v' = v \/
     Refined.found v' = true /\
     JS.startsWith (Refined.mimeType v') "image/" = true /\
     exists item,
       In item items /\
       Refined.imageUrl v' = Refined.link item /\
       Refined.imageTitle v' = Refined.title item).
Proof.
  destruct (check_items_run Wd items v w log)
    as (v' & w' & probes & Hrun
        & [(pre & item & r & ct & post & Hi & Hp & Hrej & Ha & Hv)
          |(_ & _ & Hv)]).
  - exists v', w'. eexists. split; [exact Hrun|]. right. subst v'. cbn.
    split; [reflexivity|]. split; [exact (accepted_starts_with_image r ct Ha)|].
    exists item. split; [|split; reflexivity].
    rewrite Hi. apply in_or_app. right. now left.
  - exists v', w'. eexists. split; [exact Hrun|]. left. exact Hv.
Qed.

Lemma search_url_determines_the_query_witness :
  "cat typing" = "cat typing".
Proof.
  exact (proj1 search_url_determines_the_query "KEY" "cat typing"
           "cat typing" eq_refl).
Defined.

(** ** The [result] text and the trimmed query *)

Import JSONRead.

Lemma hex_value_lower k :
  (k < 16)%N -> hex_value (JS.hex_digit_lower k) = Some k.
Proof.
  intros H. destruct k as [|p]; [reflexivity|].
  do 4 (try destruct p as [p|p|]); try reflexivity; exfalso; lia.
Qed.

Lemma ascii_of_code c n : N_of_ascii c = n -> c = ascii_of_N n.
Proof. intros <-. now rewrite ascii_N_embedding. Qed.

Lemma string_length_ind (P : string -> Prop) :
  (forall s, (forall s', String.length s' < String.length s -> P s') -> P s) ->
  forall s, P s.
Proof.
  intros H s.
  assert (G : forall n s, String.length s < n -> P s).
  { induction n as [|n IH]; intros s' Hl; [lia|].
    apply H. intros s'' Hl'. apply IH. lia. }
  apply (G (S (String.length s))). lia.
Qed.

(** Reading back one byte as [JSON.stringify] writes it. *)
Lemma read_escape_byte c z s rest :
  read_chars (z ++ String JS.dquote rest) = Some (s, rest) ->
  read_chars (JS.escape_byte c z ++ String JS.dquote rest)
  = Some (String c s, rest).
Proof.
  generalize (String JS.dquote rest). intros tail IH.
  unfold JS.escape_byte. cbv zeta.
  destruct (N.eqb_spec (N_of_ascii c) 34) as [E|N34];
    [apply ascii_of_code in E; subst c; cbn; now rewrite IH|].
  destruct (N.eqb_spec (N_of_ascii c) 92) as [E|N92];
    [apply ascii_of_code in E; subst c; cbn; now rewrite IH|].
  destruct (N.eqb_spec (N_of_ascii c) 8) as [E|N8];
    [apply ascii_of_code in E; subst c; cbn; now rewrite IH|].
  destruct (N.eqb_spec (N_of_ascii c) 9) as [E|N9];
    [apply ascii_of_code in E; subst c; cbn; now rewrite IH|].
  destruct (N.eqb_spec (N_of_ascii c) 10) as [E|N10];
    [apply ascii_of_code in E; subst c; cbn; now rewrite IH|].
  destruct (N.eqb_spec (N_of_ascii c) 12) as [E|N12];
    [apply ascii_of_code in E; subst c; cbn; now rewrite IH|].
  destruct (N.eqb_spec (N_of_ascii c) 13) as [E|N13];
    [apply ascii_of_code in E; subst c; cbn; now rewrite IH|].
  destruct (N.ltb_spec (N_of_ascii c) 32) as [L|G].
  - cbn [append read_chars]. cbv zeta.
    change (N_of_ascii JS.backslash =? 34)%N with false.
    change (N_of_ascii JS.backslash =? 92)%N with true.
    change (N_of_ascii "u" =? 117)%N with true. cbv iota.
    change (hex_value "0") with (Some 0%N).
    assert (Hh : (N_of_ascii c / 16 < 16)%N)
      by (apply N.Div0.div_lt_upper_bound; lia).
    assert (Hl : (N_of_ascii c mod 16 < 16)%N) by (apply N.mod_lt; lia).
    rewrite (hex_value_lower _ Hh), (hex_value_lower _ Hl).
    replace (((0 * 16 + 0) * 16 + N_of_ascii c / 16) * 16
             + N_of_ascii c mod 16)%N with (N_of_ascii c)
      by (rewrite (N.div_mod (N_of_ascii c) 16) at 1 by lia; lia).
    destruct (N.ltb_spec (N_of_ascii c) 128) as [_|G']; [|lia].
    rewrite IH, ascii_N_embedding. reflexivity.
  - cbn [append read_chars]. cbv zeta.
    destruct (N.eqb_spec (N_of_ascii c) 34); [contradiction|].
    destruct (N.eqb_spec (N_of_ascii c) 92); [contradiction|].
    destruct (N.ltb_spec (N_of_ascii c) 32); [lia|].
    now rewrite IH.
Qed.

(** The four hexadecimal digits of a code point below U+10000. *)
Lemma four_digits cp :
  (cp < 65536)%N ->
  (cp / 4096 < 16 /\ (cp / 256) mod 16 < 16 /\ (cp / 16) mod 16 < 16 /\
   cp mod 16 < 16 /\
   ((cp / 4096 * 16 + (cp / 256) mod 16) * 16 + (cp / 16) mod 16) * 16
   + cp mod 16 = cp)%N.
Proof.
  intros H.
  pose proof (N.div_mod cp 16 ltac:(lia)) as E1.
  pose proof (N.div_mod (cp / 16) 16 ltac:(lia)) as E2.
  pose proof (N.div_mod (cp / 256) 16 ltac:(lia)) as E3.
  pose proof (N.mod_lt cp 16 ltac:(lia)) as L1.
  pose proof (N.mod_lt (cp / 16) 16 ltac:(lia)) as L2.
  pose proof (N.mod_lt (cp / 256) 16 ltac:(lia)) as L3.
  assert (D2 : (cp / 16 / 16 = cp / 256)%N)
    by (rewrite N.Div0.div_div; reflexivity).
  assert (D3 : (cp / 256 / 16 = cp / 4096)%N)
    by (rewrite N.Div0.div_div; reflexivity).
  rewrite D2 in E2. rewrite D3 in E3.
  assert (L4 : (cp / 4096 < 16)%N)
    by (apply N.Div0.div_lt_upper_bound; lia).
  repeat split; lia.
Qed.

(** Reading back a lone surrogate as [JSON.stringify] writes it. *)
Lemma read_escape_surrogate c1 c2 c3 cp z s rest :
  JS.surrogate c1 c2 c3 = Some cp ->
  read_chars (z ++ String JS.dquote rest) = Some (s, rest) ->
  read_chars (JS.escape_surrogate cp z ++ String JS.dquote rest)
  = Some (String c1 (String c2 (String c3 s)), rest).
Proof.
  generalize (String JS.dquote rest). intros tail Hs IH.
  unfold JS.surrogate in Hs. cbv zeta in Hs.
  match type of Hs with
  | (if ?b then _ else _) = _ => destruct b eqn:Hb; [|discriminate Hs]
  end.
  assert (Hcp : (55296 + (N_of_ascii c2 - 160) * 64
                 + (N_of_ascii c3 - 128))%N = cp) by congruence.
  clear Hs. rewrite !Bool.andb_true_iff in Hb.
  destruct Hb as ((((E1 & L2) & U2) & L3) & U3).
  apply N.eqb_eq in E1. apply N.leb_le in L2, U2, L3, U3.
  set (b := N_of_ascii c2) in *. set (c := N_of_ascii c3) in *.
  assert (Hlo : (55296 <= cp)%N) by lia.
  assert (Hhi : (cp <= 57343)%N) by lia.
  destruct (four_digits cp ltac:(lia)) as (H1 & H2 & H3 & H4 & Hsum).
  unfold JS.escape_surrogate. cbn [append read_chars]. cbv zeta.
  change (N_of_ascii JS.backslash =? 34)%N with false.
  change (N_of_ascii JS.backslash =? 92)%N with true.
  change (N_of_ascii "u" =? 117)%N with true. cbv iota.
  rewrite (hex_value_lower _ H1), (hex_value_lower _ H2),
    (hex_value_lower _ H3), (hex_value_lower _ H4), Hsum.
  destruct (N.ltb_spec cp 128) as [|_]; [lia|].
  destruct (N.leb_spec 55296 cp) as [_|]; [|lia].
  destruct (N.leb_spec cp 57343) as [_|]; [|lia].
  cbn [andb]. rewrite IH. cbn [cons_char].
  assert (Eq : ((cp - 55296) / 64 = b - 160)%N).
  { symmetry. apply (N.div_unique _ _ _ (c - 128)); lia. }
  assert (Er : ((cp - 55296) mod 64 = c - 128)%N).
  { symmetry. apply (N.mod_unique _ _ (b - 160)); lia. }
  rewrite Eq, Er.
  replace (160 + (b - 160))%N with b by lia.
  replace (128 + (c - 128))%N with c by lia.
  subst b c. rewrite <- E1, !ascii_N_embedding. reflexivity.
Qed.

Lemma json_escape_unfold c1 s1 :
  JS.json_escape (String c1 s1)
  = match s1 with
    | String c2 (String c3 s3) =>
        match JS.surrogate c1 c2 c3 with
        | Some cp => JS.escape_surrogate cp (JS.json_escape s3)
        | None => JS.escape_byte c1 (JS.json_escape s1)
        end
    | _ => JS.escape_byte c1 (JS.json_escape s1)
    end.
Proof. destruct s1 as [|c2 [|c3 s3]]; reflexivity. Qed.

Lemma read_chars_escape s : forall rest,
  read_chars (JS.json_escape s ++ String JS.dquote rest) = Some (s, rest).
Proof.
  induction s as [s IH] using string_length_ind. intros rest.
  destruct s as [|c1 s1]; [reflexivity|].
  rewrite json_escape_unfold.
  assert (H1 : read_chars (JS.json_escape s1 ++ String JS.dquote rest)
               = Some (s1, rest)) by (apply IH; cbn; lia).
  destruct s1 as [|c2 [|c3 s3]]; try (apply read_escape_byte; exact H1).
  destruct (JS.surrogate c1 c2 c3) as [cp|] eqn:Hs;
    [|apply read_escape_byte; exact H1].
  apply (read_escape_surrogate _ _ _ _ _ _ _ Hs). apply IH. cbn. lia.
Qed.

Lemma append_assoc' (a b c : string) : (a ++ b) ++ c = a ++ (b ++ c).
Proof. induction a as [|x a IH]; cbn; [reflexivity|now rewrite IH]. Qed.

Lemma read_literal_json_string s rest :
  read_literal (JS.json_string s ++ rest) = Some (s, rest).
Proof.
  unfold JS.json_string, JS.quote. rewrite !append_assoc'.
  cbn [append read_literal].
  change (N_of_ascii JS.dquote =? 34)%N with true. cbv iota.
  apply read_chars_escape.
Qed.

Lemma read_member_json key value rest :
  read_member key
    (JS.json_string key ++ String ":" (JS.json_string value ++ rest))
  = Some (value, rest).
Proof.
  unfold read_member. rewrite read_literal_json_string, String.eqb_refl.
  cbn [expect]. rewrite Ascii.eqb_refl.
  apply read_literal_json_string.
Qed.

(** X22. The [result] text can be read back: reading the JSON text that
    both handlers build from a URL, a title and a query gives back exactly
    these three strings, whatever characters they hold (quotes, backslashes
    and control characters included). *)
Theorem result_reads_back url title query :
  read_responseData (stringify_responseData url title query)
  = Some (url, title, query).
Proof.
  unfold read_responseData, stringify_responseData.
  cbn [expect append]. rewrite Ascii.eqb_refl.
  rewrite read_member_json. cbn [expect append]. rewrite Ascii.eqb_refl.
  rewrite read_member_json. cbn [expect append]. rewrite Ascii.eqb_refl.
  rewrite read_member_json. reflexivity.
Qed.

(** Induction on a string with the hypothesis for every shorter string. *)
(** [trimStart] removes a prefix, and what it returns has nothing more to
    remove. *)
Lemma trimStart_spec s :
  String.length (JS.trimStart s) <= String.length s /\
  JS.trimStart (JS.trimStart s) = JS.trimStart s.
Proof.
  induction s as [s IH] using string_length_ind.
  destruct s as [|c1 [|c2 [|c3 s3]]]; cbn [JS.trimStart].
  - split; [lia|reflexivity].
  - destruct (JS.ws1 c1) eqn:E1; cbn [JS.trimStart]; [split; [cbn; lia|reflexivity]|].
    rewrite E1. split; [lia|reflexivity].
  - destruct (JS.ws1 c1) eqn:E1.
    + destruct (IH (String c2 EmptyString)) as [L I]; [cbn; lia|].
      split; [cbn in *; lia|exact I].
    + destruct (JS.ws2 c1 c2) eqn:E2; cbn [JS.trimStart];
        [split; [cbn; lia|reflexivity]|].
      rewrite E1, E2. split; [lia|reflexivity].
  - destruct (JS.ws1 c1) eqn:E1.
    + destruct (IH (String c2 (String c3 s3))) as [L I]; [cbn; lia|].
      split; [cbn in *; lia|exact I].
    + destruct (JS.ws2 c1 c2) eqn:E2.
      * destruct (IH (String c3 s3)) as [L I]; [cbn; lia|].
        split; [cbn in *; lia|exact I].
      * destruct (JS.ws3 c1 c2 c3) eqn:E3.
        -- destruct (IH s3) as [L I]; [cbn; lia|].
           split; [cbn in *; lia|exact I].
        -- cbn [JS.trimStart]. rewrite E1, E2, E3. split; [lia|reflexivity].
Qed.

Lemma append_empty_r a : a ++ EmptyString = a.
Proof. induction a as [|x a IH]; cbn; [reflexivity|now rewrite IH]. Qed.

(** The same for the scan of the reversed string, which removes a prefix of
    it. *)
Lemma trimStart_rev_spec s :
  (exists p, s = p ++ JS.trimStart_rev s) /\
  JS.trimStart_rev (JS.trimStart_rev s) = JS.trimStart_rev s.
Proof.
  induction s as [s IH] using string_length_ind.
  destruct s as [|c1 [|c2 [|c3 s3]]]; cbn [JS.trimStart_rev].
  - split; [now exists EmptyString|reflexivity].
  - destruct (JS.ws1 c1) eqn:E1; cbn [JS.trimStart_rev].
    + split; [now exists (String c1 EmptyString)|reflexivity].
    + rewrite E1. split; [now exists EmptyString|reflexivity].
  - destruct (JS.ws1 c1) eqn:E1.
    + destruct (IH (String c2 EmptyString)) as [[p Hp] I]; [cbn; lia|].
      split; [exists (String c1 p); cbn [append]; f_equal; exact Hp|exact I].
    + destruct (JS.ws2 c2 c1) eqn:E2; cbn [JS.trimStart_rev].
      * split; [now exists (String c1 (String c2 EmptyString))|reflexivity].
      * rewrite E1, E2. split; [now exists EmptyString|reflexivity].
  - destruct (JS.ws1 c1) eqn:E1.
    + destruct (IH (String c2 (String c3 s3))) as [[p Hp] I]; [cbn; lia|].
      split; [exists (String c1 p); cbn [append]; f_equal; exact Hp|exact I].
    + destruct (JS.ws2 c2 c1) eqn:E2.
      * destruct (IH (String c3 s3)) as [[p Hp] I]; [cbn; lia|].
        split; [exists (String c1 (String c2 p)); cbn [append]; do 2 f_equal;
                exact Hp|exact I].
      * destruct (JS.ws3 c3 c2 c1) eqn:E3.
        -- destruct (IH s3) as [[p Hp] I]; [cbn; lia|].
           split; [exists (String c1 (String c2 (String c3 p))); cbn [append];
                   do 3 f_equal; exact Hp|exact I].
        -- cbn [JS.trimStart_rev]. rewrite E1, E2, E3.
           split; [now exists EmptyString|reflexivity].
Qed.

Lemma rev_string_acc s : forall acc,
  JS.rev_string s acc = JS.rev_string s EmptyString ++ acc.
Proof.
  induction s as [|c s IH]; intros acc; cbn; [reflexivity|].
  rewrite IH, (IH (String c EmptyString)), append_assoc'. reflexivity.
Qed.

Lemma rev_string_append a b :
  JS.rev_string (a ++ b) EmptyString
  = JS.rev_string b EmptyString ++ JS.rev_string a EmptyString.
Proof.
  induction a as [|c a IH]; cbn; [now rewrite append_empty_r|].
  rewrite rev_string_acc, IH, (rev_string_acc a (String c EmptyString)),
    append_assoc'. reflexivity.
Qed.

Lemma rev_string_involutive s :
  JS.rev_string (JS.rev_string s EmptyString) EmptyString = s.
Proof.
  induction s as [|c s IH]; cbn; [reflexivity|].
  rewrite (rev_string_acc s (String c EmptyString)), rev_string_append, IH.
  reflexivity.
Qed.

(** [trimEnd] keeps a prefix of its argument. *)
Lemma trimEnd_prefix s : exists q, s = JS.trimEnd s ++ q.
Proof.
  unfold JS.trimEnd.
  destruct (trimStart_rev_spec (JS.rev_string s EmptyString)) as [[p Hp] _].
  exists (JS.rev_string p EmptyString).
  rewrite <- rev_string_append, <- Hp. symmetry. apply rev_string_involutive.
Qed.

Lemma trimEnd_idempotent s : JS.trimEnd (JS.trimEnd s) = JS.trimEnd s.
Proof.
  unfold JS.trimEnd. rewrite rev_string_involutive.
  destruct (trimStart_rev_spec (JS.rev_string s EmptyString)) as [_ I].
  now rewrite I.
Qed.

Lemma trimStart_unfold c1 s1 :
  JS.trimStart (String c1 s1)
  = if JS.ws1 c1 then JS.trimStart s1
    else match s1 with
         | String c2 s2 =>
             if JS.ws2 c1 c2 then JS.trimStart s2
             else match s2 with
                  | String c3 s3 =>
                      if JS.ws3 c1 c2 c3 then JS.trimStart s3
                      else String c1 s1
                  | EmptyString => String c1 s1
                  end
         | EmptyString => String c1 s1
         end.
Proof. reflexivity. Qed.

(** A prefix of a string that does not begin with white space does not
    begin with white space. *)
Lemma trimStart_fixed_prefix p q :
  JS.trimStart (p ++ q) = p ++ q -> JS.trimStart p = p.
Proof.
  assert (shorter : forall c s, JS.trimStart s <> String c s).
  { intros c s E. pose proof (proj1 (trimStart_spec s)) as L.
    rewrite E in L. cbn in L. lia. }
  assert (shorter2 : forall c c' s, JS.trimStart s <> String c (String c' s)).
  { intros c c' s E. pose proof (proj1 (trimStart_spec s)) as L.
    rewrite E in L. cbn in L. lia. }
  assert (shorter3 : forall c c' c'' s,
             JS.trimStart s <> String c (String c' (String c'' s))).
  { intros c c' c'' s E. pose proof (proj1 (trimStart_spec s)) as L.
    rewrite E in L. cbn in L. lia. }
  destruct p as [|c1 [|c2 [|c3 p3]]]; cbn [append]; intros H;
    [reflexivity|rewrite trimStart_unfold in H; rewrite trimStart_unfold..].
  - destruct (JS.ws1 c1); [exfalso; exact (shorter _ _ H)|reflexivity].
  - destruct (JS.ws1 c1); [exfalso; exact (shorter _ _ H)|].
    destruct (JS.ws2 c1 c2); [exfalso; exact (shorter2 _ _ _ H)|reflexivity].
  - destruct (JS.ws1 c1); [exfalso; exact (shorter _ _ H)|].
    destruct (JS.ws2 c1 c2); [exfalso; exact (shorter2 _ _ _ H)|].
    destruct (JS.ws3 c1 c2 c3); [exfalso; exact (shorter3 _ _ _ _ H)|].
    reflexivity.
Qed.

(** What [trim] returns has no white space left at either end. *)
Lemma trim_is_trimmed s :
  JS.trimStart (JS.trim s) = JS.trim s /\
  JS.trimEnd (JS.trim s) = JS.trim s /\
  JS.trim (JS.trim s) = JS.trim s.
Proof.
  assert (S : JS.trimStart (JS.trim s) = JS.trim s).
  { unfold JS.trim.
    destruct (trimEnd_prefix (JS.trimStart s)) as [q Hq].
    apply (trimStart_fixed_prefix _ q). rewrite <- Hq.
    apply trimStart_spec. }
  assert (E : JS.trimEnd (JS.trim s) = JS.trim s)
    by (unfold JS.trim; apply trimEnd_idempotent).
  split; [exact S|]. split; [exact E|].
  unfold JS.trim at 1. rewrite S. exact E.
Qed.

(** X23. The refined query is the raw input text or a string without white
    space at its ends: unless it is the text itself, trimming it again
    changes nothing. *)
Theorem refined_query_is_trimmed_or_raw content text :
  Refined.refine_query content text = text \/
  JS.trim (Refined.refine_query content text)
  = Refined.refine_query content text.
Proof.
  unfold Refined.refine_query. destruct content as [s|]; [|now left].
  cbn [option_map JS.or_default].
  destruct (JS.trim s) eqn:E; [now left|right].
  rewrite <- E. apply trim_is_trimmed.
Qed.
